(** * isort/io.py: encoding resolution for source files

    A shallow embedding of [src/isort/io.py] and the properties of its
    encoding-declaration scanner, its fallback chain, the [File] handle and
    the [_EmptyIO] sink.

    Python data is modelled as follows.
    - [bytes] is a list of [Byte.byte].
    - [str] is a list of code points (numbers in [N]); a [str] is valid text
      when every code point is a Unicode scalar value.
    - running a piece of code gives a [result]: [Raise e] for an exception,
      [Return a] for a value; [let*] stops at the first exception, as Python
      does. *)

From Stdlib Require Import List NArith ZArith Lia Bool String Ascii.
From Stdlib Require Import Strings.Byte.
Import ListNotations.

Local Open Scope N_scope.
Local Open Scope list_scope.

Set Implicit Arguments.

(** ** Bytes and text *)

Definition bytes := list byte.

(** A Python [str]: its code points, in order. *)
Definition str := list N.

(** The bytes of an ASCII literal of the source, [b"..."]. *)
Definition b (s : string) : bytes := list_byte_of_string s.

(** The text of an ASCII literal of the source, ["..."]. *)
Definition py (s : string) : str := map Byte.to_N (list_byte_of_string s).

Definition str_eq_dec : forall x y : str, {x = y} + {x <> y} :=
  list_eq_dec N.eq_dec.

Definition str_eqb (x y : str) : bool :=
  if str_eq_dec x y then true else false.

(** ** Exceptions *)

(** A resolved [pathlib.Path]: the components below the root. *)
Definition Path := list str.

(** The exceptions that reach this module.  [UnicodeError] is one that is
    neither of its two subclasses above it.  [UnableToDetermineEncoding] is
    the one the module raises itself (declared in [isort/exceptions.py]); it
    carries the path and the two encodings that were tried. *)
Inductive exn : Type :=
| UnicodeDecodeError
| UnicodeEncodeError
| UnicodeError
| LookupError
| ValueError
| OSError
| RuntimeError
| UnableToDetermineEncoding (file_path : Path) (encoding fallback_encoding : str).

(** The outcome of running a piece of Python code. *)
Inductive result (A : Type) : Type :=
| Raise (e : exn)
| Return (a : A).

Arguments Raise {A} e.
Arguments Return {A} a.

Definition bind {A B} (m : result A) (k : A -> result B) : result B :=
  match m with
  | Raise e => Raise e
  | Return a => k a
  end.

Notation "'let*' x ':=' m 'in' k" := (bind m (fun x => k))
  (at level 10, x name, m at level 100, k at level 200).

(** [try: m except UnicodeDecodeError: h]. *)
Definition except_UnicodeDecodeError {A} (m : result A) (h : result A) : result A :=
  match m with
  | Raise UnicodeDecodeError => h
  | other => other
  end.

(** ** The encoding pattern

    [_ENCODING_PATTERN = re.compile(br"^[ \t\f]*#.*?coding[:=][ \t]*([-_.a-zA-Z0-9]+)")] *)

Module Pattern.

Definition in_range (lo hi : N) (c : byte) : bool :=
  (lo <=? Byte.to_N c) && (Byte.to_N c <=? hi).

Definition code (n : N) (c : byte) : bool := Byte.to_N c =? n.

(** [[ \t\f]] *)
Definition blank_or_ff (c : byte) : bool := code 32 c || code 9 c || code 12 c.

(** [[ \t]] *)
Definition blank (c : byte) : bool := code 32 c || code 9 c.

(** [[:=]] *)
Definition separator (c : byte) : bool := code 58 c || code 61 c.

(** [[-_.a-zA-Z0-9]] *)
Definition ident (c : byte) : bool :=
  code 45 c || code 95 c || code 46 c
  || in_range 97 122 c || in_range 65 90 c || in_range 48 57 c.

(** [.] without DOTALL: every byte but the line feed. *)
Definition any (c : byte) : bool := negb (code 10 c).

(** A greedy class repetition: the longest run of the class, and what
    follows it. *)
Fixpoint run (p : byte -> bool) (l : bytes) : bytes :=
  match l with
  | c :: r => if p c then c :: run p r else []
  | [] => []
  end.

Fixpoint after_run (p : byte -> bool) (l : bytes) : bytes :=
  match l with
  | c :: r => if p c then after_run p r else l
  | [] => []
  end.

(** A literal: what follows it, when the input starts with it. *)
Fixpoint literal (lit l : bytes) : option bytes :=
  match lit, l with
  | [], _ => Some l
  | x :: lit', c :: r => if Byte.eqb x c then literal lit' r else None
  | _ :: _, [] => None
  end.

(** [coding[:=][ \t]*([-_.a-zA-Z0-9]+)] at the head of the input: the
    captured group.  The two repetitions are greedy and their classes are
    disjoint from what follows them, so giving a byte back never helps. *)
Definition coding (l : bytes) : option bytes :=
  match literal (b "coding") l with
  | Some (c :: r) =>
      if separator c then
        match run ident (after_run blank r) with
        | [] => None
        | g => Some g
        end
      else None
  | _ => None
  end.

(** [.*?] followed by the rest of the pattern: the lazy repetition tries
    the shortest prefix first and grows over one byte that is not a line
    feed at a time. *)
Fixpoint lazy_coding (l : bytes) {struct l} : option bytes :=
  match coding l with
  | Some g => Some g
  | None =>
      match l with
      | c :: r => if any c then lazy_coding r else None
      | [] => None
      end
  end.

(** The whole pattern, anchored by [^] at the start of the input. *)
Definition match_start (line : bytes) : option bytes :=
  match after_run blank_or_ff line with
  | c :: r => if code 35 c then lazy_coding r else None
  | [] => None
  end.

(** [re.findall(_ENCODING_PATTERN, line)].  Without MULTILINE, [^] holds at
    offset 0 only, so there is at most one match; with one group, the list
    holds the group of each match. *)
Definition findall (line : bytes) : list bytes :=
  match match_start line with
  | Some g => [g]
  | None => []
  end.

End Pattern.

(** [bytes.decode("ascii")] *)
Definition decode_ascii (s : bytes) : result str :=
  if forallb (fun c => Byte.to_N c <? 128) s
  then Return (map Byte.to_N s)
  else Raise UnicodeDecodeError.

(** ** The declaration scanner *)

(** The loop of [_determine_stream_encoding], from line [line_number] on. *)
Fixpoint scan_from (line_number : N) (stream : list bytes) (default : str)
  : result str :=
  match stream with
  | [] => Return default
  | line :: rest =>
      if 2 <? line_number then Return default
      else
        match Pattern.findall line with
        | g :: _ => decode_ascii g
        | [] => scan_from (line_number + 1) rest default
        end
  end.

Definition _determine_stream_encoding (stream : list bytes) (default : str)
  : result str :=
  scan_from 1 stream default.


(** ** Codecs

    The codecs are Python's, not this module's: they are modelled after their
    definition. *)

(** What decoding a whole file gives: the text, a [UnicodeDecodeError] for
    bytes that are not valid under the encoding, or an exception of another
    class (the UTF-16 decoder of a text stream raises a plain [UnicodeError]
    on a missing byte order mark). *)
Inductive decoding : Type :=
| Decoded (s : str)
| Undecodable
| DecoderError.

(** [encode] gives [None] for a [UnicodeEncodeError]. *)
Record Codec : Type := {
  encode : str -> option bytes;
  decode : bytes -> decoding
}.

Definition decoding_of_option (o : option str) : decoding :=
  match o with
  | Some s => Decoded s
  | None => Undecodable
  end.

Definition byte_of (n : N) : byte :=
  match Byte.of_N n with
  | Some c => c
  | None => x00
  end.

(** A Unicode scalar value: a code point that is not a surrogate. *)
Definition scalar (c : N) : bool :=
  (c <? 0xD800) || ((0xDFFF <? c) && (c <? 0x110000)).

(** Text that every Unicode encoding can represent. *)
Definition valid_text (s : str) : bool := forallb scalar s.

Module UTF8.

Definition cont (c k : N) : byte :=
  byte_of (N.lor 0x80 (N.land (N.shiftr c (6 * k)) 0x3F)).

Definition encode_char (c : N) : option bytes :=
  if c <? 0x80 then Some [byte_of c]
  else if c <? 0x800 then
    Some [byte_of (N.lor 0xC0 (N.shiftr c 6)); cont c 0]
  else if negb (scalar c) then None
  else if c <? 0x10000 then
    Some [byte_of (N.lor 0xE0 (N.shiftr c 12)); cont c 1; cont c 0]
  else
    Some [byte_of (N.lor 0xF0 (N.shiftr c 18)); cont c 2; cont c 1; cont c 0].

Fixpoint encode (s : str) : option bytes :=
  match s with
  | [] => Some []
  | c :: r =>
      match encode_char c, encode r with
      | Some x, Some y => Some (x ++ y)
      | _, _ => None
      end
  end.

Definition is_cont (c : byte) : bool :=
  N.land (Byte.to_N c) 0xC0 =? 0x80.

Definition low6 (c : byte) : N := N.land (Byte.to_N c) 0x3F.

(** A decoded sequence is accepted when it is the shortest encoding of a
    scalar value. *)
Definition accept (lo c : N) : option N :=
  if (lo <=? c) && scalar c then Some c else None.

Fixpoint decode (l : bytes) {struct l} : option str :=
  match l with
  | [] => Some []
  | c0 :: r =>
      let n := Byte.to_N c0 in
      if n <? 0x80 then option_map (cons n) (decode r)
      else if n <? 0xC0 then None
      else match r with
      | c1 :: r1 =>
          if negb (is_cont c1) then None
          else if n <? 0xE0 then
            match accept 0x80 (N.lor (N.shiftl (N.land n 0x1F) 6) (low6 c1)) with
            | Some c => option_map (cons c) (decode r1)
            | None => None
            end
          else match r1 with
          | c2 :: r2 =>
              if negb (is_cont c2) then None
              else if n <? 0xF0 then
                match accept 0x800
                        (N.lor (N.shiftl (N.land n 0x0F) 12)
                           (N.lor (N.shiftl (low6 c1) 6) (low6 c2))) with
                | Some c => option_map (cons c) (decode r2)
                | None => None
                end
              else match r2 with
              | c3 :: r3 =>
                  if negb (is_cont c3) then None
                  else if n <? 0xF8 then
                    match accept 0x10000
                            (N.lor (N.shiftl (N.land n 0x07) 18)
                               (N.lor (N.shiftl (low6 c1) 12)
                                  (N.lor (N.shiftl (low6 c2) 6) (low6 c3)))) with
                    | Some c => option_map (cons c) (decode r3)
                    | None => None
                    end
                  else None
              | [] => None
              end
          | [] => None
          end
      | [] => None
      end
  end.

Definition codec : Codec :=
  Build_Codec encode (fun l => decoding_of_option (decode l)).

End UTF8.

Module ASCII.

Definition encode (s : str) : option bytes :=
  if forallb (fun c => c <? 128) s then Some (map byte_of s) else None.

Definition decode (l : bytes) : option str :=
  match decode_ascii l with
  | Return s => Some s
  | Raise _ => None
  end.

Definition codec : Codec :=
  Build_Codec encode (fun l => decoding_of_option (decode l)).

End ASCII.

Module Latin1.

Definition encode (s : str) : option bytes :=
  if forallb (fun c => c <? 256) s then Some (map byte_of s) else None.

Definition decode (l : bytes) : str := map Byte.to_N l.

Definition codec : Codec := Build_Codec encode (fun l => Decoded (decode l)).

End Latin1.

Definition utf_8 : str := py "utf-8".
Definition ascii_ : str := py "ascii".
Definition latin_1 : str := py "latin-1".

(** ** The environment

    What the module asks of the interpreter and of the operating system:
    the locale, the file system and the codec registry. *)

(** Why a file does not open: the operating system refuses ([OSError]: no
    such file, no permission, a directory), the path holds a surrogate that
    the file system encoding has no bytes for ([UnicodeEncodeError]), or it
    holds a NUL ([ValueError]).  Opening a file decodes nothing, in binary
    mode and in text mode alike. *)
Inductive open_error : Type :=
| OpenOSError
| OpenUnicodeEncodeError
| OpenValueError.

Definition exn_of_open_error (e : open_error) : exn :=
  match e with
  | OpenOSError => OSError
  | OpenUnicodeEncodeError => UnicodeEncodeError
  | OpenValueError => ValueError
  end.

(** Why a name does not resolve: it holds a NUL ([ValueError]) or a surrogate
    without bytes ([UnicodeEncodeError]), the working directory is gone
    ([OSError]), or symbolic links loop ([RuntimeError]). *)
Inductive resolve_error : Type :=
| ResolveValueError
| ResolveUnicodeEncodeError
| ResolveOSError
| ResolveRuntimeError.

Definition exn_of_resolve_error (e : resolve_error) : exn :=
  match e with
  | ResolveValueError => ValueError
  | ResolveUnicodeEncodeError => UnicodeEncodeError
  | ResolveOSError => OSError
  | ResolveRuntimeError => RuntimeError
  end.

Inductive opening : Type :=
| Opens (content : bytes)
| Fails (e : open_error).

Record Env : Type := {
  (** [locale.getpreferredencoding(False)] *)
  getpreferredencoding : str;
  (** [Path(filename).resolve()], when it resolves *)
  resolve : str -> option Path;
  (** what [Path(filename).resolve()] raises, when it does not *)
  resolve_raises : str -> resolve_error;
  (** the file behind a resolved path, for the duration of a call *)
  fs : Path -> opening;
  (** the codecs registered besides the built-in ones *)
  other_codecs : str -> option Codec
}.

(** [Path(filename).resolve()] *)
Definition Path_resolve (env : Env) (filename : str) : result Path :=
  match resolve env filename with
  | Some p => Return p
  | None => Raise (exn_of_resolve_error (resolve_raises env filename))
  end.

(** [codecs.lookup(encoding)] *)
Definition lookup (env : Env) (encoding : str) : option Codec :=
  if str_eqb encoding utf_8 then Some UTF8.codec
  else if str_eqb encoding ascii_ then Some ASCII.codec
  else if str_eqb encoding latin_1 then Some Latin1.codec
  else other_codecs env encoding.

(** [bytes.split(b"\n")] *)
Fixpoint split_lf (s : bytes) : list bytes :=
  match s with
  | [] => [[]]
  | c :: r =>
      if Pattern.any c then
        match split_lf r with
        | line :: rest => (c :: line) :: rest
        | [] => [[c]]
        end
      else [] :: split_lf r
  end.

(** Iterating over a binary file: every line keeps its line feed. *)
Fixpoint readlines (s : bytes) : list bytes :=
  match s with
  | [] => []
  | c :: r =>
      if Pattern.any c then
        match readlines r with
        | line :: rest => (c :: line) :: rest
        | [] => [[c]]
        end
      else [c] :: readlines r
  end.

(** [str.encode(encoding)] *)
Definition str_encode (env : Env) (s : str) (encoding : str) : result bytes :=
  match lookup env encoding with
  | None => Raise LookupError
  | Some c =>
      match encode c s with
      | Some x => Return x
      | None => Raise UnicodeEncodeError
      end
  end.

(** ** Text streams *)

(** A readable text stream that nothing has been read from yet: a text-mode
    file with the codec it decodes with, or a [StringIO]. *)
Inductive TextIO : Type :=
| TextIOWrapper (raw : bytes) (encoding : str) (codec : Codec)
| StringIO (initial_value : str).

(** [stream.read()]; with [newline=""] a file is decoded and nothing else. *)
Definition read (stream : TextIO) : result str :=
  match stream with
  | TextIOWrapper raw _ codec =>
      match decode codec raw with
      | Decoded s => Return s
      | Undecodable => Raise UnicodeDecodeError
      | DecoderError => Raise UnicodeError
      end
  | StringIO s => Return s
  end.

(** [file_path.open("rb")] and [file_path.open("rb", encoding=...)]: a
    binary-mode open refuses an encoding argument before it touches the
    file. *)
Definition open_rb (env : Env) (file_path : Path) (encoding : option str)
  : result bytes :=
  match encoding with
  | Some _ => Raise ValueError
  | None =>
      match fs env file_path with
      | Opens content => Return content
      | Fails e => Raise (exn_of_open_error e)
      end
  end.

(** [file_path.open(encoding=encoding, newline="")] *)
Definition open_text (env : Env) (file_path : Path) (encoding : str)
  : result TextIO :=
  match fs env file_path with
  | Fails e => Raise (exn_of_open_error e)
  | Opens content =>
      match lookup env encoding with
      | None => Raise LookupError
      | Some c => Return (TextIOWrapper content encoding c)
      end
  end.

(** ** The encoding resolver *)

Definition _determine_content_encoding (env : Env) (content : str) (default : str)
  : result str :=
  let* encoded := str_encode env content default in
  _determine_stream_encoding (split_lf encoded) default.

Definition _determine_file_encoding (env : Env) (file_path : Path) (default : str)
  : result str :=
  except_UnicodeDecodeError
    (let* open_file := open_rb env file_path None in
     _determine_stream_encoding (readlines open_file) default)
    (let fallback_encoding := getpreferredencoding env in
     except_UnicodeDecodeError
       (let* open_file := open_rb env file_path (Some fallback_encoding) in
        _determine_stream_encoding (readlines open_file) fallback_encoding)
       (Raise (UnableToDetermineEncoding file_path default fallback_encoding))).

Definition _read_file_contents (env : Env) (file_path : Path)
  : result (str * str) :=
  let* encoding := _determine_file_encoding env file_path utf_8 in
  let* file_to_import_sort := open_text env file_path encoding in
  except_UnicodeDecodeError
    (let* file_contents := read file_to_import_sort in
     Return (file_contents, encoding))
    (let fallback_encoding := getpreferredencoding env in
     let* file_to_import_sort := open_text env file_path fallback_encoding in
     except_UnicodeDecodeError
       (let* file_contents := read file_to_import_sort in
        Return (file_contents, fallback_encoding))
       (Raise (UnableToDetermineEncoding file_path encoding fallback_encoding))).

(** ** The source handle *)

Module File.

Record t : Type := {
  contents : TextIO;
  path : Path;
  encoding : str
}.

Definition read (env : Env) (filename : str) : result t :=
  let* file_path := Path_resolve env filename in
  let* encoding := _determine_file_encoding env file_path utf_8 in
  let* contents := open_text env file_path encoding in
  Return {| contents := contents; path := file_path; encoding := encoding |}.

Definition from_contents (env : Env) (contents : str) (filename : str)
  : result t :=
  let stream := StringIO contents in
  let* file_path := Path_resolve env filename in
  let* encoding := _determine_content_encoding env contents utf_8 in
  Return {| contents := stream; path := file_path; encoding := encoding |}.

(** [Path.name]: the last component, empty for the root. *)
Definition name (p : Path) : str := last p [].

(** [str.rfind(c)]: the highest index of [c], or -1. *)
Fixpoint rfind (c : N) (s : str) : Z :=
  match s with
  | [] => (-1)%Z
  | x :: r =>
      let i := rfind c r in
      if (0 <=? i)%Z then (i + 1)%Z
      else if x =? c then 0%Z else (-1)%Z
  end.

Definition dot : N := 46.

(** [Path.suffix]: the name from its last dot on, unless that dot is the
    first or the last character of the name. *)
Definition suffix (p : Path) : str :=
  let name := name p in
  let i := rfind dot name in
  if ((0 <? i) && (i <? Z.of_nat (List.length name) - 1))%Z
  then skipn (Z.to_nat i) name
  else [].

(** [str.lstrip(".")] *)
Fixpoint lstrip_dot (s : str) : str :=
  match s with
  | c :: r => if c =? dot then lstrip_dot r else s
  | [] => []
  end.

Definition extension (self : t) : str := lstrip_dot (suffix (path self)).

End File.

(** ** The null sink *)

(** The arguments a caller may pass to [write]. *)
Inductive value : Type :=
| VNone
| VInt (n : Z)
| VStr (s : str)
| VBytes (s : bytes).

Module _EmptyIO.

(** What can be observed of a [StringIO] object: its buffer and its
    position. *)
Record t : Type := {
  getvalue : str;
  tell : N
}.

(** [StringIO.write(s)], which [_EmptyIO] overrides: it writes the text at
    the position and returns its length. *)
Definition StringIO_write (self : t) (s : str) : t * value :=
  let pos := N.to_nat (tell self) in
  let old := getvalue self in
  let padded := firstn pos old ++ repeat 0 (pos - List.length old)%nat in
  ({| getvalue := padded ++ s ++ skipn (pos + List.length s) old;
      tell := tell self + N.of_nat (List.length s) |},
   VInt (Z.of_nat (List.length s))).

(** [def write(self, *args, **kwargs): pass] *)
Definition write (self : t) (args : list value) (kwargs : list (str * value))
  : result (t * value) :=
  Return (self, VNone).

(** [Empty = _EmptyIO()] *)
Definition Empty : t := {| getvalue := []; tell := 0 |}.

(** A sequence of calls of [write]: the object after them and what they
    returned, or the first exception. *)
Fixpoint writes (self : t) (calls : list (list value * list (str * value)))
  : result (t * list value) :=
  match calls with
  | [] => Return (self, [])
  | (args, kwargs) :: rest =>
      let* r := write self args kwargs in
      let* rs := writes (fst r) rest in
      Return (fst rs, snd r :: snd rs)
  end.

End _EmptyIO.

(** * Specifications *)

(** What follows a greedy run of the class [p] does not start with a byte of
    the class. *)
Definition stops (p : byte -> bool) (l : bytes) : bool :=
  match l with
  | c :: _ => negb (p c)
  | [] => true
  end.


(** ** The pattern, in words

    What a line has to look like for the pattern to capture [g].  The
    definitions below say so with concatenations; the lemmas after them show
    that the matcher computes exactly that. *)

(** The input starts with [coding], a separator, blanks and the identifier
    [g], taken as long as it goes. *)
Definition at_coding (l g : bytes) : Prop :=
  exists sep sp tail,
    l = b "coding" ++ sep :: sp ++ g ++ tail
    /\ Pattern.separator sep = true
    /\ forallb Pattern.blank sp = true
    /\ g <> []
    /\ forallb Pattern.ident g = true
    /\ stops Pattern.ident tail = true.

(** [g] is the identifier of the first declaration that is reached from the
    start of [l] without crossing a line feed. *)
Definition first_coding (l g : bytes) : Prop :=
  exists pre rest,
    l = pre ++ rest
    /\ forallb Pattern.any pre = true
    /\ at_coding rest g
    /\ forall pre' rest' g',
         l = pre' ++ rest' -> at_coding rest' g' ->
         (List.length pre <= List.length pre')%nat.

(** The line declares the encoding [g]. *)
Definition declares (line g : bytes) : Prop :=
  exists ws hash l,
    line = ws ++ hash :: l
    /\ forallb Pattern.blank_or_ff ws = true
    /\ Pattern.code 35 hash = true
    /\ first_coding l g.

(** The scanner, said without the loop: the first two lines are tried in
    order, and nothing else is. *)
Definition first_declaration (stream : list bytes) : option bytes :=
  match stream with
  | [] => None
  | l1 :: rest =>
      match Pattern.match_start l1 with
      | Some g => Some g
      | None =>
          match rest with
          | [] => None
          | l2 :: _ => Pattern.match_start l2
          end
      end
  end.

(** The name the scanner settles on. *)
Definition declared_or (default : str) (stream : list bytes) : str :=
  match first_declaration stream with
  | Some g => map Byte.to_N g
  | None => default
  end.

(** An attempt to decode [content] under [encoding] gives the text [s]. *)
Definition decodes (env : Env) (encoding : str) (content : bytes) (s : str)
  : Prop :=
  exists c, lookup env encoding = Some c /\ decode c content = Decoded s.

(** An attempt to decode [content] under [encoding] ends in a
    [UnicodeDecodeError]: the codec is there and the bytes are not valid
    under it.  This is the one failure that the resolver catches. *)
Definition fails_to_decode (env : Env) (encoding : str) (content : bytes)
  : Prop :=
  exists c, lookup env encoding = Some c /\ decode c content = Undecodable.

(** An attempt to decode [content] under [encoding] fails, in whatever way:
    no text comes out of it. *)
Definition no_decoding (env : Env) (encoding : str) (content : bytes) : Prop :=
  forall s, ~ decodes env encoding content s.


(** ** Sample inputs *)

(** The line feed, which a literal cannot hold. *)
Definition lf : bytes := [x0a].

Definition latin_1_comment : bytes := b "# -*- coding: latin-1 -*-".

(** A file system of regular files below the working directory [cwd], with
    no symbolic links: a name resolves to the components of [cwd] followed
    by its own.  A name with a NUL does not resolve, and neither does a name
    with a surrogate that the file system encoding (UTF-8 with
    [surrogateescape]) has no bytes for. *)
Fixpoint components (s : str) : list str :=
  match s with
  | [] => [[]]
  | c :: r =>
      if c =? 47 then [] :: components r
      else
        match components r with
        | x :: rest => (c :: x) :: rest
        | [] => [[c]]
        end
  end.

Definition walk (p : Path) (component : str) : Path :=
  if str_eqb component [] then p
  else if str_eqb component (py ".") then p
  else if str_eqb component (py "..") then removelast p
  else p ++ [component].

Definition fs_encodable (c : N) : bool :=
  scalar c || ((0xDC80 <=? c) && (c <=? 0xDCFF)).

Definition lexical_resolve (cwd : Path) (filename : str) : option Path :=
  if existsb (N.eqb 0) filename then None
  else if negb (forallb fs_encodable filename) then None
  else
    match filename with
    | 47 :: _ => Some (fold_left walk (components filename) [])
    | _ => Some (fold_left walk (components filename) cwd)
    end.

Definition path_eq_dec : forall x y : Path, {x = y} + {x <> y} :=
  list_eq_dec str_eq_dec.

Fixpoint find_file (files : list (Path * opening)) (p : Path) : opening :=
  match files with
  | [] => Fails OpenOSError
  | (q, o) :: rest => if path_eq_dec p q then o else find_file rest p
  end.

Definition lexical_resolve_raises (filename : str) : resolve_error :=
  if existsb (N.eqb 0) filename then ResolveValueError
  else ResolveUnicodeEncodeError.

(** Some of the other spellings under which Python knows the built-in
    codecs. *)
Definition aliases : list (str * Codec) :=
  [(py "UTF-8", UTF8.codec); (py "utf8", UTF8.codec); (py "utf_8", UTF8.codec);
   (py "ASCII", ASCII.codec); (py "us-ascii", ASCII.codec);
   (py "latin1", Latin1.codec); (py "latin_1", Latin1.codec);
   (py "iso-8859-1", Latin1.codec); (py "ISO-8859-1", Latin1.codec)].

Fixpoint find_codec (table : list (str * Codec)) (encoding : str)
  : option Codec :=
  match table with
  | [] => None
  | (name, c) :: rest =>
      if str_eqb encoding name then Some c else find_codec rest encoding
  end.

Definition sample_env (preferred : str) (files : list (Path * opening)) : Env :=
  {| getpreferredencoding := preferred;
     resolve := lexical_resolve [py "home"; py "user"];
     resolve_raises := lexical_resolve_raises;
     fs := find_file files;
     other_codecs := find_codec aliases |}.

Definition sample_path : Path := [py "home"; py "user"; py "a.py"].

(** A file that declares ASCII and holds a byte that is valid under latin-1
    and under neither ASCII nor UTF-8. *)
Definition mislabelled : bytes := b "# coding: ascii" ++ lf ++ [xff].

Definition mislabelled_env (preferred : str) : Env :=
  sample_env preferred [(sample_path, Opens mislabelled)].

(** A working directory in which [buf.py] is a symbolic link to
    [data.txt]. *)
Definition link_env : Env :=
  {| getpreferredencoding := utf_8;
     resolve := fun filename =>
       if str_eqb filename (py "buf.py")
       then Some [py "home"; py "user"; py "data.txt"]
       else lexical_resolve [py "home"; py "user"] filename;
     resolve_raises := lexical_resolve_raises;
     fs := find_file [];
     other_codecs := find_codec aliases |}.

(** ** Further specifications *)

(** The characters of an identifier of the pattern, as code points. *)
Definition ident_char (c : N) : bool :=
  (c =? 45) || (c =? 95) || (c =? 46)
  || ((97 <=? c) && (c <=? 122))
  || ((65 <=? c) && (c <=? 90))
  || ((48 <=? c) && (c <=? 57)).

(** A file that declares an encoding no codec is registered for. *)
Definition unknown_codec_env : Env :=
  sample_env latin_1
    [(sample_path, Opens (b "# coding: klingon" ++ lf ++ b "x = 1" ++ lf))].

(** * Properties *)

Unset Implicit Arguments.

(** ** The model on the declarations of PEP 263 *)

Example emacs_declaration :
  Pattern.findall (b "# -*- coding: latin-1 -*-") = [b "latin-1"].
Proof. reflexivity. Qed.

Example vim_declaration :
  Pattern.findall (b "  # vim: set fileencoding=utf-8 :") = [b "utf-8"].
Proof. reflexivity. Qed.

Example declaration_after_code :
  Pattern.findall (b "x = 1  # coding: ascii") = [].
Proof. reflexivity. Qed.

Example declaration_after_line_feed :
  Pattern.findall (b "#" ++ lf ++ b "coding: ascii") = [].
Proof. reflexivity. Qed.

Example first_viable_coding :
  Pattern.findall (b "# coding coding=a.b-c_d! coding: e") = [b "a.b-c_d"].
Proof. reflexivity. Qed.

Example declaration_on_third_line :
  _determine_stream_encoding
    [b "import os" ++ lf; b "import sys" ++ lf; b "# coding: ascii" ++ lf]
    utf_8 = Return utf_8.
Proof. reflexivity. Qed.

Example utf_8_of_euro :
  UTF8.encode [120; 233; 8364; 128512]
  = Some [x78; xc3; xa9; xe2; x82; xac; xf0; x9f; x98; x80]
  /\ UTF8.decode [x78; xc3; xa9; xe2; x82; xac; xf0; x9f; x98; x80]
     = Some [120; 233; 8364; 128512].
Proof. split; reflexivity. Qed.

Example utf_8_rejects :
  UTF8.encode [55296] = None
  /\ UTF8.decode [xc0; x80] = None
  /\ UTF8.decode [xed; xa0; x80] = None
  /\ UTF8.decode [xff] = None.
Proof. repeat split. Qed.

Example lines_of_a_file :
  readlines (b "a" ++ lf ++ b "b") = [b "a" ++ lf; b "b"]
  /\ split_lf (b "a" ++ lf ++ b "b" ++ lf) = [b "a"; b "b"; []].
Proof. split; reflexivity. Qed.

Example suffixes :
  File.suffix [py "a.tar.gz"] = py ".gz"
  /\ File.suffix [py ".bashrc"] = []
  /\ File.suffix [py "a."] = []
  /\ File.suffix [] = [].
Proof. repeat split. Qed.

(** ** Greedy runs and literals *)

Section Runs.

Variable p : byte -> bool.

Lemma run_app_after_run (l : bytes) :
  Pattern.run p l ++ Pattern.after_run p l = l.
Proof.
  induction l as [|c r IH]; simpl; [reflexivity|].
  destruct (p c); simpl; [now rewrite IH | reflexivity].
Qed.

Lemma run_all (l : bytes) : forallb p (Pattern.run p l) = true.
Proof.
  induction l as [|c r IH]; simpl; [reflexivity|].
  destruct (p c) eqn:E; simpl; [now rewrite E | reflexivity].
Qed.

Lemma after_run_stops (l : bytes) : stops p (Pattern.after_run p l) = true.
Proof.
  induction l as [|c r IH]; simpl; [reflexivity|].
  destruct (p c) eqn:E; simpl; [assumption | now rewrite E].
Qed.

(** A greedy run is the only way to cut the input into bytes of the class
    followed by something that stops them. *)
Lemma run_unique (x y : bytes) :
  forallb p x = true -> stops p y = true ->
  Pattern.run p (x ++ y) = x /\ Pattern.after_run p (x ++ y) = y.
Proof.
  intros Hx Hy. induction x as [|c r IH]; simpl in *.
  - destruct y as [|c r]; simpl in *; [now split|].
    apply negb_true_iff in Hy. now rewrite Hy.
  - apply andb_true_iff in Hx as [Hc Hr]. rewrite Hc.
    destruct (IH Hr) as [-> ->]. now split.
Qed.

End Runs.

Lemma byte_eqb_eq (x y : byte) : Byte.eqb x y = true <-> x = y.
Proof.
  split; [apply Byte.byte_dec_bl | apply Byte.byte_dec_lb].
Qed.

Lemma literal_spec (lit l r : bytes) :
  Pattern.literal lit l = Some r <-> l = lit ++ r.
Proof.
  revert l. induction lit as [|x lit IH]; intros l; simpl.
  - split; congruence.
  - destruct l as [|c l']; [split; discriminate|].
    destruct (Byte.eqb x c) eqn:E.
    + apply byte_eqb_eq in E. subst c. rewrite IH. split; congruence.
    + split; [discriminate|]. intros H. injection H as -> _.
      rewrite (proj2 (byte_eqb_eq x x) eq_refl) in E. discriminate.
Qed.

(** ** The classes of the pattern *)

Lemma ident_ascii (c : byte) : Pattern.ident c = true -> (Byte.to_N c <? 128) = true.
Proof.
  unfold Pattern.ident, Pattern.code, Pattern.in_range. intros H.
  apply N.ltb_lt.
  repeat (apply orb_true_iff in H as [H|H]);
    repeat (apply andb_true_iff in H as [? H]);
    rewrite ?N.eqb_eq, ?N.leb_le in *; lia.
Qed.

Lemma ident_not_blank (c : byte) : Pattern.ident c = true -> Pattern.blank c = false.
Proof.
  unfold Pattern.ident, Pattern.blank, Pattern.code, Pattern.in_range. intros H.
  apply orb_false_iff; split; apply N.eqb_neq;
  repeat (apply orb_true_iff in H as [H|H]);
    repeat (apply andb_true_iff in H as [? H]);
    rewrite ?N.eqb_eq, ?N.leb_le in *; lia.
Qed.

Lemma hash_not_blank_or_ff (c : byte) :
  Pattern.code 35 c = true -> Pattern.blank_or_ff c = false.
Proof.
  unfold Pattern.blank_or_ff, Pattern.code. intros H. apply N.eqb_eq in H.
  rewrite H. reflexivity.
Qed.

Lemma coding_spec (l g : bytes) : Pattern.coding l = Some g <-> at_coding l g.
Proof.
  unfold Pattern.coding, at_coding. split.
  - destruct (Pattern.literal (b "coding") l) as [[|sep r]|] eqn:L; try discriminate.
    apply literal_spec in L.
    destruct (Pattern.separator sep) eqn:S; try discriminate.
    destruct (Pattern.run Pattern.ident (Pattern.after_run Pattern.blank r)) as [|c g'] eqn:R;
      try discriminate.
    intros H. injection H as <-.
    exists sep, (Pattern.run Pattern.blank r),
      (Pattern.after_run Pattern.ident (Pattern.after_run Pattern.blank r)).
    rewrite <- R, run_app_after_run, run_app_after_run.
    repeat split; try assumption.
    + apply run_all.
    + rewrite R. discriminate.
    + apply run_all.
    + apply after_run_stops.
  - intros (sep & sp & tail & -> & S & B & N & I & T).
    rewrite (proj2 (literal_spec (b "coding") _ (sep :: sp ++ g ++ tail)) eq_refl).
    rewrite S.
    assert (G : stops Pattern.blank (g ++ tail) = true).
    { destruct g as [|c g']; [congruence|]. simpl in *.
      apply andb_true_iff in I as [I _]. now rewrite (ident_not_blank _ I). }
    destruct (run_unique Pattern.blank sp (g ++ tail) B G) as [_ ->].
    destruct (run_unique Pattern.ident g tail I T) as [-> _].
    destruct g; [contradiction|reflexivity].
Qed.

Lemma coding_None (l : bytes) :
  Pattern.coding l = None <-> forall g, ~ at_coding l g.
Proof.
  split.
  - intros H g A. apply coding_spec in A. congruence.
  - intros H. destruct (Pattern.coding l) as [g|] eqn:E; [|reflexivity].
    apply coding_spec in E. now apply H in E.
Qed.

Lemma lazy_coding_spec (l g : bytes) :
  Pattern.lazy_coding l = Some g <-> first_coding l g.
Proof.
  unfold first_coding. revert g. induction l as [|c r IH]; intros g.
  - split; [discriminate|].
    intros (pre & rest & H & _ & A & _).
    symmetry in H. apply app_eq_nil in H as [-> ->].
    apply coding_spec in A. discriminate.
  - cbn [Pattern.lazy_coding]. destruct (Pattern.coding (c :: r)) as [g0|] eqn:E.
    + split.
      * intros H. injection H as ->. exists [], (c :: r). repeat split.
        -- now apply coding_spec.
        -- intros. simpl. lia.
      * intros (pre & rest & H & _ & A & M).
        apply coding_spec in E.
        specialize (M [] (c :: r) g0 eq_refl E). simpl in M.
        destruct pre; [|simpl in M; lia]. simpl in H. subst rest.
        apply coding_spec in A, E. congruence.
    + destruct (Pattern.any c) eqn:Any.
      * rewrite IH. split.
        -- intros (pre & rest & -> & P & A & M).
           exists (c :: pre), rest. repeat split; try assumption.
           ++ simpl. now rewrite Any.
           ++ intros [|c' pre'] rest' g' H A'.
              ** simpl in H. subst rest'. apply coding_spec in A'. congruence.
              ** simpl in H. injection H as <- H. simpl.
                 specialize (M pre' rest' g' H A'). lia.
        -- intros (pre & rest & H & P & A & M).
           destruct pre as [|c' pre].
           ++ simpl in H. subst rest. apply coding_spec in A. congruence.
           ++ simpl in H. injection H as <- ->.
              exists pre, rest. repeat split; try assumption.
              ** simpl in P. now apply andb_true_iff in P as [_ P].
              ** intros pre' rest' g' H A'.
                 specialize (M (c :: pre') rest' g').
                 simpl in M. rewrite H in M. specialize (M eq_refl A'). lia.
      * split; [discriminate|].
        intros (pre & rest & H & P & A & _).
        destruct pre as [|c' pre].
        -- simpl in H. subst rest. apply coding_spec in A. congruence.
        -- simpl in H. injection H as <- _. simpl in P. rewrite Any in P.
           discriminate.
Qed.

Lemma match_start_spec (line g : bytes) :
  Pattern.match_start line = Some g <-> declares line g.
Proof.
  unfold Pattern.match_start, declares. split.
  - destruct (Pattern.after_run Pattern.blank_or_ff line) as [|c r] eqn:A;
      [discriminate|].
    destruct (Pattern.code 35 c) eqn:H; [|discriminate].
    intros L. apply lazy_coding_spec in L.
    exists (Pattern.run Pattern.blank_or_ff line), c, r.
    rewrite <- A, run_app_after_run. repeat split; try assumption.
    apply run_all.
  - intros (ws & hash & l & -> & W & H & F).
    assert (S : stops Pattern.blank_or_ff (hash :: l) = true).
    { simpl. now rewrite (hash_not_blank_or_ff _ H). }
    destruct (run_unique Pattern.blank_or_ff ws (hash :: l) W S) as [_ ->].
    rewrite H. now apply lazy_coding_spec.
Qed.

Lemma findall_spec (line : bytes) :
  (forall g, Pattern.findall line = [g] <-> declares line g)
  /\ (Pattern.findall line = [] <-> forall g, ~ declares line g).
Proof.
  unfold Pattern.findall. split.
  - intros g. rewrite <- match_start_spec.
    destruct (Pattern.match_start line); split; congruence.
  - destruct (Pattern.match_start line) as [g|] eqn:E.
    + split; [discriminate|]. intros H. apply match_start_spec in E.
      now apply H in E.
    + split; [|reflexivity]. intros _ g D. apply match_start_spec in D.
      congruence.
Qed.

(** A line declares at most one encoding. *)
Lemma declares_unique (line g g' : bytes) :
  declares line g -> declares line g' -> g = g'.
Proof.
  intros D D'. apply match_start_spec in D, D'. congruence.
Qed.

(** The captured group is a non-empty run of identifier bytes. *)
Lemma match_start_ident (line g : bytes) :
  Pattern.match_start line = Some g ->
  g <> [] /\ forallb Pattern.ident g = true.
Proof.
  intros H. apply match_start_spec in H.
  destruct H as (_ & _ & _ & _ & _ & _ & pre & rest & _ & _ & A & _).
  destruct A as (_ & _ & _ & _ & _ & _ & N & I & _). now split.
Qed.

Lemma decode_ascii_ident (g : bytes) :
  forallb Pattern.ident g = true -> decode_ascii g = Return (map Byte.to_N g).
Proof.
  intros I. unfold decode_ascii.
  replace (forallb (fun c => Byte.to_N c <? 128) g) with true; [reflexivity|].
  symmetry. apply forallb_forall. intros c Hc.
  apply ident_ascii. rewrite forallb_forall in I. now apply I.
Qed.

(** ** The scanner *)

Lemma scan_first_declaration (stream : list bytes) (default : str) :
  _determine_stream_encoding stream default =
  match first_declaration stream with
  | Some g => Return (map Byte.to_N g)
  | None => Return default
  end.
Proof.
  unfold _determine_stream_encoding, first_declaration.
  destruct stream as [|l1 rest]; [reflexivity|].
  cbn [scan_from]. change (2 <? 1) with false. cbv iota.
  unfold Pattern.findall at 1.
  destruct (Pattern.match_start l1) as [g|] eqn:E1.
  - apply decode_ascii_ident. now apply match_start_ident in E1.
  - destruct rest as [|l2 rest]; [reflexivity|].
    cbn [scan_from]. change (2 <? 1 + 1) with false. cbv iota.
    unfold Pattern.findall.
    destruct (Pattern.match_start l2) as [g|] eqn:E2.
    + apply decode_ascii_ident. now apply match_start_ident in E2.
    + destruct rest as [|l3 rest]; [reflexivity|].
      cbn [scan_from]. reflexivity.
Qed.

(** C10: on every sequence of byte lines the scanner returns a name and
    raises nothing, and whatever the pattern captures in a line is decoded
    by the ASCII codec, to the same characters. *)
Theorem scanner_total (stream : list bytes) (default : str) :
  (exists name, _determine_stream_encoding stream default = Return name)
  /\ Forall (fun line =>
       Forall (fun g => forallb Pattern.ident g = true
                        /\ decode_ascii g = Return (map Byte.to_N g))
              (Pattern.findall line)) stream.
Proof.
  split.
  - rewrite scan_first_declaration.
    destruct (first_declaration stream); eauto.
  - apply Forall_forall. intros line _. unfold Pattern.findall.
    destruct (Pattern.match_start line) as [g|] eqn:E; constructor; [|constructor].
    apply match_start_ident in E as [_ I]. split; [assumption|].
    now apply decode_ascii_ident.
Qed.

Lemma first_declaration_found (stream : list bytes) (before : list bytes)
      (line : bytes) (after : list bytes) (g : bytes) :
  firstn 2 stream = before ++ line :: after ->
  (forall l, In l before -> forall g', ~ declares l g') ->
  declares line g ->
  first_declaration stream = Some g.
Proof.
  intros H N D. apply match_start_spec in D.
  assert (N' : forall l, In l before -> Pattern.match_start l = None).
  { intros l Hl. destruct (Pattern.match_start l) as [g'|] eqn:E; [|reflexivity].
    apply match_start_spec in E. now apply N in E. }
  destruct stream as [|l1 [|l2 rest]]; simpl in H.
  - destruct before; discriminate.
  - destruct before as [|x [|y before]]; simpl in H.
    + injection H as <- _. simpl. now rewrite D.
    + injection H as _ H. discriminate.
    + injection H as _ H. discriminate.
  - destruct before as [|x [|y before]]; simpl in H.
    + injection H as <- _. simpl. now rewrite D.
    + injection H as <- <- _. simpl.
      rewrite (N' l1 (or_introl eq_refl)). exact D.
    + injection H as _ _ H. destruct before; discriminate.
Qed.

Lemma first_declaration_none (stream : list bytes) :
  (forall l, In l (firstn 2 stream) -> forall g, ~ declares l g) ->
  first_declaration stream = None.
Proof.
  intros N.
  assert (N' : forall l, In l (firstn 2 stream) -> Pattern.match_start l = None).
  { intros l Hl. destruct (Pattern.match_start l) as [g'|] eqn:E; [|reflexivity].
    apply match_start_spec in E. now apply N in E. }
  destruct stream as [|l1 [|l2 rest]]; simpl in *.
  - reflexivity.
  - now rewrite (N' l1 (or_introl eq_refl)).
  - rewrite (N' l1 (or_introl eq_refl)). apply N'. right. now left.
Qed.

Lemma first_declaration_firstn (stream : list bytes) :
  first_declaration (firstn 2 stream) = first_declaration stream.
Proof.
  destruct stream as [|l1 [|l2 rest]]; reflexivity.
Qed.

(** C2: the scanner looks at the first two lines only.  It
    returns the identifier that the first of them to declare one declares
    (blanks or form feeds, [#], bytes other than a line feed, [coding], [:]
    or [=], blanks, then the identifier of letters, digits, [-], [_] and
    [.]), decoded as ASCII; it returns the default when neither declares
    one; and the lines after the second change nothing. *)
Theorem scanner_first_two_lines (stream : list bytes) (default : str) :
  (forall before line after g,
      firstn 2 stream = before ++ line :: after ->
      (forall l, In l before -> forall g', ~ declares l g') ->
      declares line g ->
      decode_ascii g = Return (map Byte.to_N g)
      /\ _determine_stream_encoding stream default = Return (map Byte.to_N g))
  /\ ((forall l, In l (firstn 2 stream) -> forall g, ~ declares l g) ->
      _determine_stream_encoding stream default = Return default)
  /\ _determine_stream_encoding stream default
     = _determine_stream_encoding (firstn 2 stream) default.
Proof.
  split; [|split].
  - intros before line after g H N D. split.
    + apply decode_ascii_ident. apply match_start_spec in D.
      now apply match_start_ident in D.
    + rewrite scan_first_declaration.
      now rewrite (first_declaration_found stream before line after g H N D).
  - intros N. rewrite scan_first_declaration.
    now rewrite (first_declaration_none stream N).
  - now rewrite !scan_first_declaration, first_declaration_firstn.
Qed.

Lemma scanner_first_two_lines_witness :
  _determine_stream_encoding
    [b "#!/usr/bin/env python" ++ lf; latin_1_comment ++ lf; b "x = 1" ++ lf]
    utf_8 = Return latin_1
  /\ _determine_stream_encoding
       [b "import os" ++ lf; b "import sys" ++ lf; b "# coding: ascii" ++ lf]
       utf_8 = Return utf_8.
Proof.
  split.
  - destruct (scanner_first_two_lines
                [b "#!/usr/bin/env python" ++ lf; latin_1_comment ++ lf;
                 b "x = 1" ++ lf] utf_8) as [H _].
    apply (H [b "#!/usr/bin/env python" ++ lf] (latin_1_comment ++ lf) []
             (b "latin-1") eq_refl).
    + intros l [<-|[]]. now apply findall_spec.
    + now apply match_start_spec.
  - destruct (scanner_first_two_lines
                [b "import os" ++ lf; b "import sys" ++ lf;
                 b "# coding: ascii" ++ lf] utf_8) as [_ [H _]].
    apply H. intros l [<-|[<-|[]]]; now apply findall_spec.
Defined.

(** ** The resolver for files *)

Lemma scan_declared_or (stream : list bytes) (default : str) :
  _determine_stream_encoding stream default
  = Return (declared_or default stream).
Proof.
  rewrite scan_first_declaration. unfold declared_or.
  now destruct (first_declaration stream).
Qed.

Lemma determine_file_encoding_opens (env : Env) (p : Path) (content : bytes)
      (default : str) :
  fs env p = Opens content ->
  _determine_file_encoding env p default
  = Return (declared_or default (readlines content)).
Proof.
  intros H. unfold _determine_file_encoding, open_rb. rewrite H.
  cbn [bind]. now rewrite scan_declared_or.
Qed.

(** When the binary-mode open raises, its exception goes through: it is
    none that the handler catches. *)
Lemma determine_file_encoding_fails (env : Env) (p : Path) (e : open_error)
      (default : str) :
  fs env p = Fails e ->
  _determine_file_encoding env p default = Raise (exn_of_open_error e).
Proof.
  intros H. unfold _determine_file_encoding, open_rb. rewrite H.
  now destruct e.
Qed.

Lemma read_file_contents_opens (env : Env) (p : Path) (content : bytes) :
  fs env p = Opens content ->
  _read_file_contents env p =
  let declared := declared_or utf_8 (readlines content) in
  let fallback := getpreferredencoding env in
  match lookup env declared with
  | None => Raise LookupError
  | Some c =>
      match decode c content with
      | Decoded s => Return (s, declared)
      | DecoderError => Raise UnicodeError
      | Undecodable =>
          match lookup env fallback with
          | None => Raise LookupError
          | Some c' =>
              match decode c' content with
              | Decoded s => Return (s, fallback)
              | DecoderError => Raise UnicodeError
              | Undecodable =>
                  Raise (UnableToDetermineEncoding p declared fallback)
              end
          end
      end
  end.
Proof.
  intros H. unfold _read_file_contents.
  rewrite (determine_file_encoding_opens env p content utf_8 H).
  cbn [bind]. unfold open_text. rewrite H. cbv zeta.
  destruct (lookup env (declared_or utf_8 (readlines content))) as [c|];
    [|reflexivity].
  cbn [bind read]. destruct (decode c content) as [s| |]; try reflexivity.
  cbn [bind except_UnicodeDecodeError].
  destruct (lookup env (getpreferredencoding env)) as [c'|]; [|reflexivity].
  cbn [bind read]. now destruct (decode c' content).
Qed.

(** C1, as amended: on a file that opens, the reader returns the text and
    the declared (or default [utf-8]) encoding when the file decodes under
    it; when that decoding raises [UnicodeDecodeError], it returns the text
    and the locale's encoding when the file decodes under that; and
    [UnableToDetermineEncoding], with the path, the encoding that failed
    first and the fallback encoding, is raised exactly when both decodings
    raise [UnicodeDecodeError]. *)
Theorem read_file_contents_fallback_chain (env : Env) (p : Path) :
  (forall content, fs env p = Opens content ->
     let declared := declared_or utf_8 (readlines content) in
     let fallback := getpreferredencoding env in
     _determine_file_encoding env p utf_8 = Return declared
     /\ (forall s, decodes env declared content s ->
                   _read_file_contents env p = Return (s, declared))
     /\ (fails_to_decode env declared content ->
         forall s, decodes env fallback content s ->
                   _read_file_contents env p = Return (s, fallback)))
  /\ (forall q e1 e2,
        _read_file_contents env p = Raise (UnableToDetermineEncoding q e1 e2)
        <-> exists content,
              fs env p = Opens content
              /\ q = p
              /\ e1 = declared_or utf_8 (readlines content)
              /\ e2 = getpreferredencoding env
              /\ fails_to_decode env e1 content
              /\ fails_to_decode env e2 content).
Proof.
  split.
  - intros content H declared fallback. split; [|split].
    + now apply determine_file_encoding_opens.
    + intros s (c & L & D). rewrite (read_file_contents_opens env p _ H).
      cbv zeta. fold declared. now rewrite L, D.
    + intros (c & L & D) s (c' & L' & D').
      rewrite (read_file_contents_opens env p _ H).
      cbv zeta. fold declared fallback. now rewrite L, D, L', D'.
  - intros q e1 e2. split.
    + destruct (fs env p) as [content|e] eqn:H.
      * rewrite (read_file_contents_opens env p _ H). cbv zeta.
        destruct (lookup env (declared_or utf_8 (readlines content)))
          as [c|] eqn:L; [|discriminate].
        destruct (decode c content) as [s| |] eqn:D; try discriminate.
        destruct (lookup env (getpreferredencoding env))
          as [c'|] eqn:L'; [|discriminate].
        destruct (decode c' content) as [s| |] eqn:D'; try discriminate.
        intros E. injection E as <- <- <-.
        exists content. repeat split; unfold fails_to_decode; eauto.
      * unfold _read_file_contents.
        rewrite (determine_file_encoding_fails env p e utf_8 H).
        destruct e; discriminate.
    + intros (content & H & -> & -> & -> & (c & L & D) & (c' & L' & D')).
      rewrite (read_file_contents_opens env p _ H). cbv zeta.
      now rewrite L, D, L', D'.
Qed.

Lemma read_file_contents_fallback_chain_witness :
  _read_file_contents (mislabelled_env latin_1) sample_path
  = Return (map Byte.to_N mislabelled, latin_1)
  /\ _read_file_contents (mislabelled_env utf_8) sample_path
     = Raise (UnableToDetermineEncoding sample_path ascii_ utf_8).
Proof.
  split.
  - destruct (read_file_contents_fallback_chain (mislabelled_env latin_1)
                sample_path) as [H _].
    destruct (H mislabelled eq_refl) as (_ & _ & F). apply F.
    + exists ASCII.codec. split; reflexivity.
    + exists Latin1.codec. split; reflexivity.
  - apply (read_file_contents_fallback_chain (mislabelled_env utf_8)
             sample_path).
    exists mislabelled. repeat split.
    + exists ASCII.codec. split; reflexivity.
    + exists UTF8.codec. split; reflexivity.
Defined.

(** C1, as it is stated: the file below declares an encoding that no codec
    is registered for, so the first attempt gives no text, and it decodes
    under the locale's latin-1; the reader tries no fallback and raises
    [LookupError] instead of returning the text with the fallback. *)
Lemma read_file_contents_counterexample :
  ~ (no_decoding unknown_codec_env (py "klingon")
       (b "# coding: klingon" ++ lf ++ b "x = 1" ++ lf) ->
     forall s,
       decodes unknown_codec_env (getpreferredencoding unknown_codec_env)
         (b "# coding: klingon" ++ lf ++ b "x = 1" ++ lf) s ->
       _read_file_contents unknown_codec_env sample_path
       = Return (s, getpreferredencoding unknown_codec_env)).
Proof.
  intros H.
  assert (N : no_decoding unknown_codec_env (py "klingon")
                (b "# coding: klingon" ++ lf ++ b "x = 1" ++ lf)).
  { intros s (c & L & _). discriminate L. }
  specialize (H N (map Byte.to_N (b "# coding: klingon" ++ lf ++ b "x = 1" ++ lf))).
  assert (D : decodes unknown_codec_env (getpreferredencoding unknown_codec_env)
                (b "# coding: klingon" ++ lf ++ b "x = 1" ++ lf)
                (map Byte.to_N (b "# coding: klingon" ++ lf ++ b "x = 1" ++ lf))).
  { exists Latin1.codec. split; reflexivity. }
  specialize (H D). discriminate H.
Qed.

(** ** A declaration on the first line *)

Lemma match_start_latin_1_comment (tail : bytes) :
  Pattern.match_start (latin_1_comment ++ tail) = Some (b "latin-1").
Proof.
  reflexivity.
Qed.

Lemma readlines_head (pre rest : bytes) :
  pre <> [] -> forallb Pattern.any pre = true ->
  exists x more, readlines (pre ++ rest) = (pre ++ x) :: more.
Proof.
  induction pre as [|c pre IH]; [contradiction|].
  intros _ H. simpl in H. apply andb_true_iff in H as [Hc H].
  simpl. rewrite Hc. destruct pre as [|c' pre].
  - simpl. destruct (readlines rest) as [|line more]; [exists [], []|exists line, more];
      reflexivity.
  - destruct (IH ltac:(discriminate) H) as (x & more & ->).
    now exists x, more.
Qed.

Lemma declared_or_latin_1_comment (default : str) (x : bytes) (more : list bytes) :
  declared_or default ((latin_1_comment ++ x) :: more) = latin_1.
Proof.
  unfold declared_or, first_declaration.
  now rewrite match_start_latin_1_comment.
Qed.

(** C6: whatever follows the comment [# -*- coding: latin-1 -*-] at the
    start of the content, and whatever the default is, the scanner and the
    resolver settle on [latin-1]; the content, every byte string being valid
    under latin-1, is then read under it. *)
Theorem latin_1_declaration_wins (env : Env) (p : Path) (rest : bytes)
        (default : str) :
  _determine_stream_encoding (readlines (latin_1_comment ++ rest)) default
  = Return latin_1
  /\ (fs env p = Opens (latin_1_comment ++ rest) ->
      _determine_file_encoding env p default = Return latin_1
      /\ _read_file_contents env p
         = Return (map Byte.to_N (latin_1_comment ++ rest), latin_1)).
Proof.
  destruct (readlines_head latin_1_comment rest ltac:(discriminate) eq_refl)
    as (x & more & E).
  split; [|intros H; split].
  - now rewrite scan_declared_or, E, declared_or_latin_1_comment.
  - rewrite (determine_file_encoding_opens env p _ default H).
    now rewrite E, declared_or_latin_1_comment.
  - rewrite (read_file_contents_opens env p _ H). cbv zeta.
    rewrite E, declared_or_latin_1_comment. reflexivity.
Qed.

Lemma latin_1_declaration_wins_witness :
  _determine_file_encoding
    (sample_env utf_8
       [(sample_path, Opens (latin_1_comment ++ lf ++ [xe9; xff]))])
    sample_path ascii_ = Return latin_1.
Proof.
  apply (latin_1_declaration_wins
           (sample_env utf_8
              [(sample_path, Opens (latin_1_comment ++ lf ++ [xe9; xff]))])
           sample_path (lf ++ [xe9; xff]) ascii_).
  reflexivity.
Defined.

(** ** The source handle *)

Lemma lookup_utf_8 (env : Env) : lookup env utf_8 = Some UTF8.codec.
Proof.
  reflexivity.
Qed.

Lemma File_read_Return (env : Env) (filename : str) (h : File.t) :
  File.read env filename = Return h ->
  exists content c,
    resolve env filename = Some (File.path h)
    /\ fs env (File.path h) = Opens content
    /\ File.encoding h = declared_or utf_8 (readlines content)
    /\ lookup env (File.encoding h) = Some c
    /\ File.contents h = TextIOWrapper content (File.encoding h) c.
Proof.
  unfold File.read, Path_resolve.
  destruct (resolve env filename) as [p|]; [|discriminate].
  cbn [bind]. destruct (fs env p) as [content|e] eqn:F.
  - rewrite (determine_file_encoding_opens env p content utf_8 F). cbn [bind].
    unfold open_text. rewrite F.
    destruct (lookup env (declared_or utf_8 (readlines content))) as [c|] eqn:L;
      [|discriminate].
    cbn [bind]. intros H. injection H as <-. cbn.
    exists content, c. auto.
  - rewrite (determine_file_encoding_fails env p e utf_8 F). discriminate.
Qed.

Lemma File_from_contents_Return (env : Env) (contents filename : str)
      (h : File.t) :
  File.from_contents env contents filename = Return h ->
  exists encoded,
    resolve env filename = Some (File.path h)
    /\ UTF8.encode contents = Some encoded
    /\ File.encoding h = declared_or utf_8 (split_lf encoded)
    /\ File.contents h = StringIO contents.
Proof.
  unfold File.from_contents, Path_resolve, _determine_content_encoding, str_encode.
  destruct (resolve env filename) as [p|]; [|discriminate].
  rewrite lookup_utf_8. cbn [bind encode UTF8.codec].
  destruct (UTF8.encode contents) as [encoded|]; [|discriminate].
  cbn [bind]. rewrite scan_declared_or. cbn [bind].
  intros H. injection H as <-. cbn. exists encoded. auto.
Qed.

(** C3, as amended: the encoding a handle stores is the name the scanner
    settles on, the one declared in the first two lines of the underlying
    bytes or [utf-8] when they declare none; for a file the name is that of
    a registered codec and the stream is opened under it, and nothing is
    decoded while the handle is made. *)
Theorem handle_encoding_is_scanned (env : Env) (filename : str) (h : File.t) :
  (File.read env filename = Return h ->
   exists content c,
     resolve env filename = Some (File.path h)
     /\ fs env (File.path h) = Opens content
     /\ File.encoding h = declared_or utf_8 (readlines content)
     /\ lookup env (File.encoding h) = Some c
     /\ File.contents h = TextIOWrapper content (File.encoding h) c)
  /\ (forall contents,
        File.from_contents env contents filename = Return h ->
        exists encoded,
          resolve env filename = Some (File.path h)
          /\ UTF8.encode contents = Some encoded
          /\ File.encoding h = declared_or utf_8 (split_lf encoded)
          /\ File.contents h = StringIO contents).
Proof.
  split.
  - apply File_read_Return.
  - intros contents. apply File_from_contents_Return.
Qed.

Lemma handle_encoding_is_scanned_witness :
  File.encoding
    {| File.contents := TextIOWrapper mislabelled ascii_ ASCII.codec;
       File.path := sample_path;
       File.encoding := ascii_ |}
  = declared_or utf_8 (readlines mislabelled).
Proof.
  destruct (handle_encoding_is_scanned (mislabelled_env utf_8) (py "a.py")
              {| File.contents := TextIOWrapper mislabelled ascii_ ASCII.codec;
                 File.path := sample_path;
                 File.encoding := ascii_ |}) as [H _].
  destruct (H eq_refl) as (content & c & _ & F & E & _).
  cbn [File.path] in F. injection F as <-. exact E.
Defined.

(** C3, as it is stated: the handle of a file that declares ASCII and holds
    the byte 0xFF stores [ascii], which does not decode the bytes and is not
    the default of a file without a declaration. *)
Lemma handle_encoding_counterexample :
  exists h,
    File.read (mislabelled_env utf_8) (py "a.py") = Return h
    /\ ~ ((exists s, decodes (mislabelled_env utf_8) (File.encoding h)
                       mislabelled s)
          \/ (first_declaration (readlines mislabelled) = None
              /\ File.encoding h = utf_8)).
Proof.
  exists {| File.contents := TextIOWrapper mislabelled ascii_ ASCII.codec;
            File.path := sample_path;
            File.encoding := ascii_ |}.
  split; [reflexivity|].
  cbn [File.encoding]. intros [[s (c & L & D)]|[N _]].
  - change (lookup (mislabelled_env utf_8) ascii_) with (Some ASCII.codec) in L.
    injection L as <-. discriminate D.
  - discriminate N.
Qed.

(** ** The resolver for text in memory *)

Lemma encode_char_scalar (c : N) :
  scalar c = true -> exists x, UTF8.encode_char c = Some x.
Proof.
  intros H. unfold UTF8.encode_char. rewrite H. cbn [negb].
  destruct (c <? 128); [eauto|].
  destruct (c <? 2048); [eauto|].
  destruct (c <? 65536); eauto.
Qed.

Lemma encode_valid_text (s : str) :
  valid_text s = true -> exists x, UTF8.encode s = Some x.
Proof.
  induction s as [|c r IH]; intros H; [now exists []|].
  simpl in H. apply andb_true_iff in H as [Hc Hr].
  destruct (encode_char_scalar c Hc) as [x Ex].
  destruct (IH Hr) as [y Ey].
  exists (x ++ y). simpl. now rewrite Ex, Ey.
Qed.

(** Text encodes to UTF-8 exactly when it is valid. *)
Lemma encode_Some_valid_text (s : str) (x : bytes) :
  UTF8.encode s = Some x -> valid_text s = true.
Proof.
  revert x. induction s as [|c r IH]; intros x H; [reflexivity|].
  simpl in H. destruct (UTF8.encode_char c) as [y|] eqn:Ec; [|discriminate].
  destruct (UTF8.encode r) as [z|] eqn:Er; [|discriminate].
  simpl. rewrite (IH z eq_refl), andb_true_r.
  unfold UTF8.encode_char in Ec. unfold scalar in *.
  destruct (c <? 128) eqn:A.
  - apply N.ltb_lt in A. replace (c <? 55296) with true; [reflexivity|].
    symmetry. apply N.ltb_lt. lia.
  - destruct (c <? 2048) eqn:B.
    + apply N.ltb_lt in B. replace (c <? 55296) with true; [reflexivity|].
      symmetry. apply N.ltb_lt. lia.
    + destruct ((c <? 55296) || ((57343 <? c) && (c <? 1114112)));
        [reflexivity|discriminate].
Qed.

Lemma code_eq (n : N) (c d : byte) :
  Pattern.code n c = true -> Pattern.code n d = true -> c = d.
Proof.
  unfold Pattern.code. intros Hc Hd. apply N.eqb_eq in Hc, Hd.
  assert (E : Byte.of_N (Byte.to_N c) = Byte.of_N (Byte.to_N d)) by congruence.
  rewrite !Byte.of_to_N in E. congruence.
Qed.

Lemma not_any_lf (c : byte) : Pattern.any c = false -> c = x0a.
Proof.
  unfold Pattern.any. intros H. apply negb_false_iff in H.
  now apply (code_eq 10).
Qed.




(** C7, as amended: where the name [buf.py] resolves to a path that still
    ends in [buf.py], the handle made from the text [x = 1] and a line feed
    under that name has the extension [py] and the encoding [utf-8], and
    reading its stream gives the text back. *)
Theorem from_contents_round_trip (env : Env) (file_path : Path) :
  resolve env (py "buf.py") = Some file_path ->
  File.name file_path = py "buf.py" ->
  exists h,
    File.from_contents env (py "x = 1" ++ [10]) (py "buf.py") = Return h
    /\ File.extension h = py "py"
    /\ File.encoding h = utf_8
    /\ read (File.contents h) = Return (py "x = 1" ++ [10]).
Proof.
  intros R Nm.
  exists {| File.contents := StringIO (py "x = 1" ++ [10]);
            File.path := file_path;
            File.encoding := utf_8 |}.
  repeat split.
  - unfold File.from_contents, Path_resolve. now rewrite R.
  - unfold File.extension, File.suffix. cbn [File.path]. now rewrite Nm.
Qed.

Lemma from_contents_round_trip_witness :
  exists h,
    File.from_contents (sample_env latin_1 []) (py "x = 1" ++ [10]) (py "buf.py")
    = Return h
    /\ File.extension h = py "py"
    /\ File.encoding h = utf_8
    /\ read (File.contents h) = Return (py "x = 1" ++ [10]).
Proof.
  apply (from_contents_round_trip (sample_env latin_1 [])
           [py "home"; py "user"; py "buf.py"]); reflexivity.
Defined.

(** C7, as it is stated: where [buf.py] is a symbolic link to [data.txt],
    the name resolves to the target and the extension of the handle is
    [txt]. *)
Lemma from_contents_round_trip_counterexample :
  exists h,
    File.from_contents link_env (py "x = 1" ++ [10]) (py "buf.py") = Return h
    /\ File.extension h = py "txt"
    /\ File.extension h <> py "py".
Proof.
  exists {| File.contents := StringIO (py "x = 1" ++ [10]);
            File.path := [py "home"; py "user"; py "data.txt"];
            File.encoding := utf_8 |}.
  split; [reflexivity|]. split; [reflexivity|]. discriminate.
Qed.

(** ** The extension *)

Lemma rfind_absent (c : N) (s : str) : ~ In c s -> File.rfind c s = (-1)%Z.
Proof.
  induction s as [|x r IH]; intros H; [reflexivity|].
  simpl. rewrite IH by (intros I; apply H; now right).
  simpl. destruct (x =? c) eqn:E; [|reflexivity].
  apply N.eqb_eq in E. exfalso. apply H. now left.
Qed.

Lemma rfind_last (c : N) (stem ext : str) :
  ~ In c ext -> File.rfind c (stem ++ c :: ext) = Z.of_nat (List.length stem).
Proof.
  intros H. induction stem as [|x stem IH].
  - simpl. rewrite (rfind_absent c ext H). simpl. now rewrite N.eqb_refl.
  - cbn [app File.rfind]. rewrite IH.
    replace (0 <=? Z.of_nat (List.length stem))%Z with true
      by (symmetry; apply Z.leb_le; lia).
    cbn [List.length]. lia.
Qed.

Lemma lstrip_dot_spec (s : str) :
  exists k,
    s = repeat File.dot k ++ File.lstrip_dot s
    /\ hd_error (File.lstrip_dot s) <> Some File.dot.
Proof.
  induction s as [|c r (k & E & H)].
  - exists 0%nat. split; [reflexivity|discriminate].
  - simpl. destruct (c =? File.dot) eqn:D.
    + apply N.eqb_eq in D. subst c. exists (S k). split; [|assumption].
      simpl. now rewrite <- E.
    + exists 0%nat. split; [reflexivity|]. simpl. intros I.
      injection I as ->. now rewrite N.eqb_refl in D.
Qed.

Lemma lstrip_dot_no_dot (s : str) : ~ In File.dot s -> File.lstrip_dot s = s.
Proof.
  destruct s as [|c r]; [reflexivity|]. intros H. simpl.
  destruct (c =? File.dot) eqn:D; [|reflexivity].
  apply N.eqb_eq in D. exfalso. apply H. now left.
Qed.

Lemma suffix_of_name (p : Path) (stem ext : str) :
  File.name p = stem ++ File.dot :: ext ->
  stem <> [] -> ext <> [] -> ~ In File.dot ext ->
  File.suffix p = File.dot :: ext.
Proof.
  intros Nm Hs He D. unfold File.suffix. rewrite Nm.
  rewrite (rfind_last File.dot stem ext D).
  rewrite length_app. cbn [List.length].
  replace ((0 <? Z.of_nat (List.length stem))
           && (Z.of_nat (List.length stem)
               <? Z.of_nat (List.length stem + S (List.length ext)) - 1))%Z
    with true.
  - rewrite Nat2Z.id. rewrite skipn_app, skipn_all, Nat.sub_diag. reflexivity.
  - symmetry. apply andb_true_iff. split; apply Z.ltb_lt.
    + destruct stem; [contradiction|]. cbn [List.length]. lia.
    + destruct ext; [contradiction|]. cbn [List.length]. lia.
Qed.

Lemma suffix_without_dot (p : Path) :
  ~ In File.dot (File.name p) -> File.suffix p = [].
Proof.
  intros H. unfold File.suffix. now rewrite (rfind_absent File.dot _ H).
Qed.

(** C8: the extension of a handle is the suffix of its path without the
    dots it starts with, and it is empty when the path has no suffix.  For a
    name [stem.ext], with a stem and an [ext] that holds no dot, the suffix
    is [.ext] and the extension [ext]; for a name without a dot both are
    empty. *)
Theorem extension_is_stripped_suffix (h : File.t) :
  (exists k,
     File.suffix (File.path h) = repeat File.dot k ++ File.extension h
     /\ hd_error (File.extension h) <> Some File.dot)
  /\ (File.suffix (File.path h) = [] -> File.extension h = [])
  /\ (forall stem ext,
        File.name (File.path h) = stem ++ File.dot :: ext ->
        stem <> [] -> ext <> [] -> ~ In File.dot ext ->
        File.suffix (File.path h) = File.dot :: ext
        /\ File.extension h = ext)
  /\ (~ In File.dot (File.name (File.path h)) ->
      File.suffix (File.path h) = [] /\ File.extension h = []).
Proof.
  unfold File.extension. split; [|split; [|split]].
  - apply lstrip_dot_spec.
  - now intros ->.
  - intros stem ext Nm Hs He D.
    rewrite (suffix_of_name (File.path h) stem ext Nm Hs He D).
    split; [reflexivity|]. simpl. now apply lstrip_dot_no_dot.
  - intros H. now rewrite (suffix_without_dot (File.path h) H).
Qed.

Lemma extension_is_stripped_suffix_witness :
  File.extension
    {| File.contents := StringIO [];
       File.path := [py "home"; py "user"; py "archive.tar.gz"];
       File.encoding := utf_8 |} = py "gz"
  /\ File.extension
       {| File.contents := StringIO [];
          File.path := [py "home"; py "user"; py "Makefile"];
          File.encoding := utf_8 |} = [].
Proof.
  split.
  - destruct (extension_is_stripped_suffix
                {| File.contents := StringIO [];
                   File.path := [py "home"; py "user"; py "archive.tar.gz"];
                   File.encoding := utf_8 |}) as (_ & _ & H & _).
    refine (proj2 (H (py "archive.tar") (py "gz") eq_refl _ _ _)).
    + discriminate.
    + discriminate.
    + intros [I|[I|[]]]; discriminate I.
  - destruct (extension_is_stripped_suffix
                {| File.contents := StringIO [];
                   File.path := [py "home"; py "user"; py "Makefile"];
                   File.encoding := utf_8 |}) as (_ & H & _).
    apply H. reflexivity.
Defined.

(** ** The null sink *)

Lemma StringIO_write_tell (self : _EmptyIO.t) (s : str) :
  _EmptyIO.tell (fst (_EmptyIO.StringIO_write self s))
  = _EmptyIO.tell self + N.of_nat (List.length s).
Proof.
  reflexivity.
Qed.

(** C9: whatever the arguments of a sequence of calls of [write] are, no
    call raises, every call returns [None], and the object is afterwards
    what it was before: its buffer and its position have not changed, and
    those of [Empty] are still empty and zero. *)
Theorem EmptyIO_write_discards (self : _EmptyIO.t)
        (calls : list (list value * list (str * value))) :
  _EmptyIO.writes self calls
  = Return (self, repeat VNone (List.length calls))
  /\ (exists after returned,
        _EmptyIO.writes _EmptyIO.Empty calls = Return (after, returned)
        /\ _EmptyIO.getvalue after = []
        /\ _EmptyIO.tell after = 0).
Proof.
  assert (W : forall s, _EmptyIO.writes s calls
                        = Return (s, repeat VNone (List.length calls))).
  { intros s. induction calls as [|[args kwargs] rest IH]; [reflexivity|].
    cbn [_EmptyIO.writes _EmptyIO.write bind fst snd]. rewrite IH.
    reflexivity. }
  split; [apply W|].
  exists _EmptyIO.Empty, (repeat VNone (List.length calls)).
  rewrite W. repeat split.
Qed.

(** * Further properties *)

(** ** The pattern and the scanner *)

(** X1: [re.findall] gives at most one group for a line; it gives [g]
    exactly when the line is made of blanks or form feeds, [#], the shortest
    stretch without a line feed that reaches [coding], a separator, blanks
    and the longest identifier [g]; and a group is never empty and holds
    identifier bytes only. *)
Theorem findall_captures_declared (line : bytes) :
  (List.length (Pattern.findall line) <= 1)%nat
  /\ (forall g, Pattern.findall line = [g] <-> declares line g)
  /\ (Pattern.findall line = [] <-> forall g, ~ declares line g)
  /\ Forall (fun g => g <> [] /\ forallb Pattern.ident g = true)
            (Pattern.findall line).
Proof.
  split; [|split; [|split]].
  - unfold Pattern.findall. destruct (Pattern.match_start line); simpl; lia.
  - apply findall_spec.
  - apply findall_spec.
  - unfold Pattern.findall.
    destruct (Pattern.match_start line) as [g|] eqn:E; constructor; [|constructor].
    now apply match_start_ident in E.
Qed.

Lemma findall_captures_declared_witness :
  declares (b "# vim: set fileencoding=utf-8 :") (b "utf-8")
  /\ forall g, ~ declares (b "x = 1  # coding: ascii") g.
Proof.
  split.
  - apply (findall_captures_declared (b "# vim: set fileencoding=utf-8 :")).
    reflexivity.
  - apply (findall_captures_declared (b "x = 1  # coding: ascii")).
    reflexivity.
Defined.

Lemma ident_char_to_N (c : byte) : ident_char (Byte.to_N c) = Pattern.ident c.
Proof.
  reflexivity.
Qed.

(** X2: the scanner always returns, and what it returns is the default or a
    non-empty name made of letters, digits, [-], [_] and [.] only. *)
Theorem scanner_returns_default_or_identifier (stream : list bytes)
        (default : str) :
  exists name,
    _determine_stream_encoding stream default = Return name
    /\ (name = default
        \/ (name <> [] /\ forallb ident_char name = true)).
Proof.
  rewrite scan_first_declaration. unfold first_declaration.
  assert (K : forall line g, Pattern.match_start line = Some g ->
              map Byte.to_N g <> []
              /\ forallb ident_char (map Byte.to_N g) = true).
  { intros line g E. apply match_start_ident in E as [N I]. split.
    - destruct g; [contradiction|discriminate].
    - rewrite forallb_forall in *. intros c Hc.
      apply in_map_iff in Hc as (x & <- & Hx). rewrite ident_char_to_N. auto. }
  destruct stream as [|l1 rest]; [eauto|].
  destruct (Pattern.match_start l1) as [g|] eqn:E1; [eauto|].
  destruct rest as [|l2 rest]; [eauto|].
  destruct (Pattern.match_start l2) as [g|] eqn:E2; eauto.
Qed.

Lemma match_start_without_hash (ws : bytes) (c : byte) (rest : bytes) :
  forallb Pattern.blank_or_ff ws = true ->
  Pattern.blank_or_ff c = false -> Pattern.code 35 c = false ->
  Pattern.match_start (ws ++ c :: rest) = None.
Proof.
  intros W B H. unfold Pattern.match_start.
  assert (S : stops Pattern.blank_or_ff (c :: rest) = true)
    by (simpl; now rewrite B).
  destruct (run_unique Pattern.blank_or_ff ws (c :: rest) W S) as [_ ->].
  now rewrite H.
Qed.

Lemma match_start_blank (ws : bytes) :
  forallb Pattern.blank_or_ff ws = true -> Pattern.match_start ws = None.
Proof.
  intros W. unfold Pattern.match_start.
  destruct (run_unique Pattern.blank_or_ff ws [] W eq_refl) as [_ E].
  rewrite app_nil_r in E. now rewrite E.
Qed.

Lemma scan_skips_first (l1 l2 : bytes) (more : list bytes) (default : str) :
  Pattern.match_start l1 = None ->
  _determine_stream_encoding (l1 :: l2 :: more) default
  = _determine_stream_encoding [l2] default.
Proof.
  intros E. rewrite !scan_first_declaration. unfold first_declaration.
  rewrite E. now destruct (Pattern.match_start l2).
Qed.

(** X3: a line whose first byte after its leading blanks and form feeds is
    not [#], and a line of blanks and form feeds only, declare nothing,
    whatever they hold after that; as the first line of a stream such a line
    leaves the decision to the second line alone. *)
Theorem line_without_leading_hash_is_skipped (ws : bytes) :
  forallb Pattern.blank_or_ff ws = true ->
  (Pattern.findall ws = []
   /\ forall l2 more default,
        _determine_stream_encoding (ws :: l2 :: more) default
        = _determine_stream_encoding [l2] default)
  /\ (forall c rest,
        Pattern.blank_or_ff c = false -> Pattern.code 35 c = false ->
        Pattern.findall (ws ++ c :: rest) = []
        /\ forall l2 more default,
             _determine_stream_encoding ((ws ++ c :: rest) :: l2 :: more) default
             = _determine_stream_encoding [l2] default).
Proof.
  intros W. split.
  - pose proof (match_start_blank ws W) as E. split.
    + unfold Pattern.findall. now rewrite E.
    + intros. now apply scan_skips_first.
  - intros c rest B H.
    pose proof (match_start_without_hash ws c rest W B H) as E. split.
    + unfold Pattern.findall. now rewrite E.
    + intros. now apply scan_skips_first.
Qed.

Lemma line_without_leading_hash_is_skipped_witness :
  _determine_stream_encoding
    [b "  x = 1  # coding: ascii" ++ lf; latin_1_comment ++ lf; b "y" ++ lf]
    utf_8
  = _determine_stream_encoding [latin_1_comment ++ lf] utf_8.
Proof.
  destruct (line_without_leading_hash_is_skipped (b "  ") eq_refl) as [_ H].
  apply (H "x"%byte (b " = 1  # coding: ascii" ++ lf) eq_refl eq_refl).
Defined.

(** ** Lines of a file and lines of a text *)

Lemma literal_app_other (lit l : bytes) (d : byte) :
  ~ In d lit ->
  Pattern.literal lit (l ++ [d])
  = option_map (fun r => r ++ [d]) (Pattern.literal lit l).
Proof.
  revert l. induction lit as [|a lit IH]; intros l H; [reflexivity|].
  destruct l as [|c l]; simpl.
  - destruct (Byte.eqb a d) eqn:E; [|reflexivity].
    apply byte_eqb_eq in E. exfalso. apply H. now left.
  - destruct (Byte.eqb a c); [|reflexivity].
    apply IH. intros I. apply H. now right.
Qed.

Section RunsBefore.

Variable p : byte -> bool.
Variable d : byte.
Hypothesis stop : p d = false.

Lemma run_app_stop (l : bytes) : Pattern.run p (l ++ [d]) = Pattern.run p l.
Proof.
  induction l as [|c r IH]; simpl; [now rewrite stop|].
  destruct (p c); [now rewrite IH | reflexivity].
Qed.

Lemma after_run_app_stop (l : bytes) :
  Pattern.after_run p (l ++ [d]) = Pattern.after_run p l ++ [d].
Proof.
  induction l as [|c r IH]; simpl; [now rewrite stop|].
  destruct (p c); [apply IH | reflexivity].
Qed.

End RunsBefore.

Lemma coding_lf (l : bytes) : Pattern.coding (l ++ lf) = Pattern.coding l.
Proof.
  unfold Pattern.coding, lf.
  rewrite literal_app_other
    by (intros [I|[I|[I|[I|[I|[I|[]]]]]]]; discriminate I).
  destruct (Pattern.literal (b "coding") l) as [[|c r]|]; try reflexivity.
  cbn [option_map app]. destruct (Pattern.separator c); [|reflexivity].
  rewrite (after_run_app_stop Pattern.blank x0a eq_refl).
  now rewrite (run_app_stop Pattern.ident x0a eq_refl).
Qed.

Lemma lazy_coding_lf (l : bytes) :
  Pattern.lazy_coding (l ++ lf) = Pattern.lazy_coding l.
Proof.
  induction l as [|c r IH]; [reflexivity|].
  change ((c :: r) ++ lf) with (c :: (r ++ lf)).
  cbn [Pattern.lazy_coding].
  change (c :: (r ++ lf)) with ((c :: r) ++ lf). rewrite coding_lf.
  now rewrite IH.
Qed.

Lemma match_start_lf (line : bytes) :
  Pattern.match_start (line ++ lf) = Pattern.match_start line.
Proof.
  unfold Pattern.match_start, lf.
  rewrite (after_run_app_stop Pattern.blank_or_ff x0a eq_refl).
  destruct (Pattern.after_run Pattern.blank_or_ff line) as [|c r];
    [reflexivity|].
  cbn [app]. destruct (Pattern.code 35 c); [|reflexivity].
  apply lazy_coding_lf.
Qed.

(** The first line of the two splittings of the same bytes. *)
Lemma split_lf_readlines (s : bytes) :
  (exists x, split_lf s = [x]
             /\ readlines s = match x with [] => [] | _ => [x] end)
  \/ (exists x r, split_lf s = x :: split_lf r
                  /\ readlines s = (x ++ lf) :: readlines r).
Proof.
  induction s as [|c r IH].
  - left. now exists [].
  - simpl. destruct (Pattern.any c) eqn:A.
    + destruct IH as [(x & -> & ->)|(x & r' & -> & ->)].
      * left. exists (c :: x). split; [reflexivity|]. now destruct x.
      * right. now exists (c :: x), r'.
    + apply not_any_lf in A. subst c. right. now exists [], r.
Qed.

Lemma first_declaration_readlines (s : bytes) :
  first_declaration (readlines s) = first_declaration (split_lf s).
Proof.
  destruct (split_lf_readlines s) as [(x & -> & ->)|(x & r & -> & ->)].
  - now destruct x.
  - cbn [first_declaration]. rewrite match_start_lf.
    destruct (Pattern.match_start x); [reflexivity|].
    destruct (split_lf_readlines r) as [(y & -> & ->)|(y & r' & -> & ->)].
    + now destruct y.
    + now rewrite match_start_lf.
Qed.

(** X4: the line feed that ends a line of a file changes nothing to what
    the line declares, so scanning the lines of a file and scanning the
    pieces of the same bytes split at line feeds give the same answer; the
    handle of a file and the handle of the text that the file holds in
    UTF-8 store the same encoding. *)
Theorem file_and_text_scans_agree (s : bytes) (default : str) :
  (forall line, Pattern.findall (line ++ lf) = Pattern.findall line)
  /\ _determine_stream_encoding (readlines s) default
     = _determine_stream_encoding (split_lf s) default
  /\ (forall env contents filename name h h',
        UTF8.encode contents = Some s ->
        File.read env filename = Return h ->
        fs env (File.path h) = Opens s ->
        File.from_contents env contents name = Return h' ->
        File.encoding h = File.encoding h').
Proof.
  split; [|split].
  - intros line. unfold Pattern.findall. now rewrite match_start_lf.
  - now rewrite !scan_first_declaration, first_declaration_readlines.
  - intros env contents filename name h h' E R F M.
    apply File_read_Return in R as (content & c & _ & F' & -> & _).
    apply File_from_contents_Return in M as (encoded & _ & E' & -> & _).
    rewrite F in F'. injection F' as <-.
    rewrite E in E'. injection E' as <-.
    unfold declared_or. now rewrite first_declaration_readlines.
Qed.

Lemma file_and_text_scans_agree_witness :
  File.encoding
    {| File.contents :=
         TextIOWrapper (latin_1_comment ++ lf ++ b "x = 1" ++ lf) latin_1
           Latin1.codec;
       File.path := sample_path;
       File.encoding := latin_1 |}
  = File.encoding
      {| File.contents :=
           StringIO (map Byte.to_N (latin_1_comment ++ lf ++ b "x = 1" ++ lf));
         File.path := [py "home"; py "user"; py "buf.py"];
         File.encoding := latin_1 |}.
Proof.
  destruct (file_and_text_scans_agree
              (latin_1_comment ++ lf ++ b "x = 1" ++ lf) utf_8) as (_ & _ & H).
  apply (H (sample_env utf_8
              [(sample_path, Opens (latin_1_comment ++ lf ++ b "x = 1" ++ lf))])
           (map Byte.to_N (latin_1_comment ++ lf ++ b "x = 1" ++ lf))
           (py "a.py") (py "buf.py")); reflexivity.
Defined.

(** ** Outcomes of the resolver *)

Lemma determine_file_encoding_cases (env : Env) (p : Path) (default : str) :
  _determine_file_encoding env p default
  = match fs env p with
    | Opens content => Return (declared_or default (readlines content))
    | Fails e => Raise (exn_of_open_error e)
    end.
Proof.
  destruct (fs env p) as [content|e] eqn:F.
  - now apply determine_file_encoding_opens.
  - now apply determine_file_encoding_fails.
Qed.

(** The retry of the handler asks for a binary-mode file with an encoding,
    which [open] refuses whatever the path and the encoding are. *)
Lemma retry_raises_ValueError (env : Env) (p : Path) (default fallback : str) :
  except_UnicodeDecodeError
    (let* open_file := open_rb env p (Some fallback) in
     _determine_stream_encoding (readlines open_file) fallback)
    (Raise (UnableToDetermineEncoding p default fallback))
  = Raise ValueError.
Proof.
  reflexivity.
Qed.

(** X5: [_determine_file_encoding] returns what the scanner finds in a file
    that opens and lets the exception of a file that does not open through.
    The scan in binary mode raises no [UnicodeDecodeError], so the handler
    for it never runs: the function never raises
    [UnableToDetermineEncoding], and neither does [File.read]; the locale's
    encoding has no part in its result. *)
Theorem determine_file_encoding_outcomes (env : Env) (p : Path) (default : str) :
  _determine_file_encoding env p default
  = match fs env p with
    | Opens content => Return (declared_or default (readlines content))
    | Fails e => Raise (exn_of_open_error e)
    end
  /\ _determine_file_encoding env p default <> Raise UnicodeDecodeError
  /\ (forall q e1 e2,
        _determine_file_encoding env p default
        <> Raise (UnableToDetermineEncoding q e1 e2))
  /\ (forall filename q e1 e2,
        File.read env filename <> Raise (UnableToDetermineEncoding q e1 e2))
  /\ (forall preferred,
        _determine_file_encoding
          {| getpreferredencoding := preferred;
             resolve := resolve env;
             resolve_raises := resolve_raises env;
             fs := fs env;
             other_codecs := other_codecs env |} p default
        = _determine_file_encoding env p default).
Proof.
  split; [|split; [|split; [|split]]].
  - apply determine_file_encoding_cases.
  - rewrite determine_file_encoding_cases.
    destruct (fs env p) as [content|[| |]]; discriminate.
  - intros q e1 e2. rewrite determine_file_encoding_cases.
    destruct (fs env p) as [content|[| |]]; discriminate.
  - intros filename q e1 e2. unfold File.read, Path_resolve.
    destruct (resolve env filename) as [file_path|];
      [|destruct (resolve_raises env filename); discriminate].
    cbn [bind]. rewrite determine_file_encoding_cases. unfold open_text.
    destruct (fs env file_path) as [content|[| |]]; try discriminate.
    cbn [bind].
    destruct (lookup env (declared_or utf_8 (readlines content)));
      discriminate.
  - intros preferred. now rewrite !determine_file_encoding_cases.
Qed.

Lemma read_file_contents_cases (env : Env) (p : Path) :
  _read_file_contents env p
  = match fs env p with
    | Fails e => Raise (exn_of_open_error e)
    | Opens content =>
        let declared := declared_or utf_8 (readlines content) in
        let fallback := getpreferredencoding env in
        match lookup env declared with
        | None => Raise LookupError
        | Some c =>
            match decode c content with
            | Decoded s => Return (s, declared)
            | DecoderError => Raise UnicodeError
            | Undecodable =>
                match lookup env fallback with
                | None => Raise LookupError
                | Some c' =>
                    match decode c' content with
                    | Decoded s => Return (s, fallback)
                    | DecoderError => Raise UnicodeError
                    | Undecodable =>
                        Raise (UnableToDetermineEncoding p declared fallback)
                    end
                end
            end
        end
    end.
Proof.
  destruct (fs env p) as [content|e] eqn:F.
  - now apply read_file_contents_opens.
  - unfold _read_file_contents.
    now rewrite (determine_file_encoding_fails env p e utf_8 F).
Qed.

(** X6: what [_read_file_contents] returns is sound: the file opens, the
    text is what its bytes decode to under the encoding returned with it,
    and that encoding is the declared (or default) one, or else the locale's
    after the declared one failed to decode the bytes. *)
Theorem read_file_contents_returns_a_decoding (env : Env) (p : Path)
        (s e : str) :
  _read_file_contents env p = Return (s, e) ->
  exists content,
    fs env p = Opens content
    /\ decodes env e content s
    /\ (e = declared_or utf_8 (readlines content)
        \/ (e = getpreferredencoding env
            /\ fails_to_decode env (declared_or utf_8 (readlines content))
                 content)).
Proof.
  rewrite read_file_contents_cases.
  destruct (fs env p) as [content|[| |]]; try discriminate. cbv zeta.
  destruct (lookup env (declared_or utf_8 (readlines content)))
    as [c|] eqn:L; [|discriminate].
  destruct (decode c content) as [t| |] eqn:D; try discriminate.
  - intros H. injection H as <- <-. exists content.
    split; [reflexivity|]. split; [now exists c|now left].
  - destruct (lookup env (getpreferredencoding env)) as [c'|] eqn:L';
      [|discriminate].
    destruct (decode c' content) as [t| |] eqn:D'; try discriminate.
    intros H. injection H as <- <-. exists content.
    split; [reflexivity|]. split; [now exists c'|].
    right. split; [reflexivity|now exists c].
Qed.

Lemma read_file_contents_returns_a_decoding_witness :
  exists content,
    fs (mislabelled_env latin_1) sample_path = Opens content
    /\ decodes (mislabelled_env latin_1) latin_1 content
         (map Byte.to_N mislabelled)
    /\ (latin_1 = declared_or utf_8 (readlines content)
        \/ (latin_1 = getpreferredencoding (mislabelled_env latin_1)
            /\ fails_to_decode (mislabelled_env latin_1)
                 (declared_or utf_8 (readlines content)) content)).
Proof.
  apply (read_file_contents_returns_a_decoding (mislabelled_env latin_1)
           sample_path (map Byte.to_N mislabelled) latin_1).
  reflexivity.
Defined.

(** X7: no decoding error leaves [_read_file_contents]: whatever the file
    and the codecs are, it does not raise [UnicodeDecodeError]; a decoding
    that fails so ends in the fallback or in [UnableToDetermineEncoding]. *)
Theorem read_file_contents_keeps_decoding_errors (env : Env) (p : Path) :
  _read_file_contents env p <> Raise UnicodeDecodeError.
Proof.
  rewrite read_file_contents_cases.
  destruct (fs env p) as [content|[| |]]; try discriminate.
  cbv zeta.
  destruct (lookup env (declared_or utf_8 (readlines content))) as [c|];
    [|discriminate].
  destruct (decode c content) as [t| |]; try discriminate.
  destruct (lookup env (getpreferredencoding env)) as [c'|];
    [|discriminate].
  destruct (decode c' content) as [t| |]; discriminate.
Qed.

(** X8: a declared encoding that no codec is registered for is fatal: the
    scanner returns its name, and both [_read_file_contents] and [File.read]
    raise [LookupError] when they open the file under it; the locale's
    encoding is not tried. *)
Theorem unknown_declared_codec_raises_LookupError (env : Env) (p : Path)
        (content : bytes) :
  fs env p = Opens content ->
  lookup env (declared_or utf_8 (readlines content)) = None ->
  _determine_file_encoding env p utf_8
  = Return (declared_or utf_8 (readlines content))
  /\ _read_file_contents env p = Raise LookupError
  /\ (forall filename,
        resolve env filename = Some p ->
        File.read env filename = Raise LookupError).
Proof.
  intros F L. split; [|split].
  - now apply determine_file_encoding_opens.
  - rewrite read_file_contents_cases, F. cbv zeta. now rewrite L.
  - intros filename R. unfold File.read, Path_resolve. rewrite R.
    cbn [bind]. rewrite (determine_file_encoding_opens env p content utf_8 F).
    cbn [bind]. unfold open_text. now rewrite F, L.
Qed.

Lemma unknown_declared_codec_raises_LookupError_witness :
  _read_file_contents unknown_codec_env sample_path = Raise LookupError
  /\ File.read unknown_codec_env (py "a.py") = Raise LookupError.
Proof.
  destruct (unknown_declared_codec_raises_LookupError unknown_codec_env
              sample_path (b "# coding: klingon" ++ lf ++ b "x = 1" ++ lf)
              eq_refl eq_refl) as (_ & H & K).
  split; [exact H|]. apply K. reflexivity.
Defined.

(** X9: reading the stream of the handle that [File.read] returns gives a
    text exactly when [_read_file_contents] returns that text with the
    handle's encoding for the handle's path. *)
Theorem handle_stream_agrees_with_read_file_contents (env : Env)
        (filename : str) (h : File.t) :
  File.read env filename = Return h ->
  forall s,
    read (File.contents h) = Return s
    <-> _read_file_contents env (File.path h) = Return (s, File.encoding h).
Proof.
  intros R s.
  apply File_read_Return in R as (content & c & _ & F & E & L & ->).
  rewrite read_file_contents_cases, F. cbv zeta. rewrite <- E, L.
  cbn [read]. destruct (decode c content) as [t| |] eqn:D.
  - split; intros H; injection H as <-; reflexivity.
  - split; [discriminate|].
    destruct (lookup env (getpreferredencoding env)) as [c'|] eqn:L';
      [|discriminate].
    destruct (decode c' content) as [t| |] eqn:D'; try discriminate.
    intros H. injection H as <- H. rewrite H, L in L'. injection L' as <-.
    rewrite D in D'. discriminate.
  - split; discriminate.
Qed.

Lemma handle_stream_agrees_with_read_file_contents_witness :
  _read_file_contents
    (sample_env utf_8
       [(sample_path, Opens (latin_1_comment ++ lf ++ [xe9]))])
    sample_path
  = Return (map Byte.to_N (latin_1_comment ++ lf ++ [xe9]), latin_1).
Proof.
  apply (handle_stream_agrees_with_read_file_contents
           (sample_env utf_8
              [(sample_path, Opens (latin_1_comment ++ lf ++ [xe9]))])
           (py "a.py")
           {| File.contents :=
                TextIOWrapper (latin_1_comment ++ lf ++ [xe9]) latin_1
                  Latin1.codec;
              File.path := sample_path;
              File.encoding := latin_1 |} eq_refl).
  reflexivity.
Defined.

(** ** Outcomes of the construction from text *)

Lemma valid_text_encode (s : str) :
  valid_text s = false -> UTF8.encode s = None.
Proof.
  intros V. destruct (UTF8.encode s) as [x|] eqn:E; [|reflexivity].
  apply encode_Some_valid_text in E. congruence.
Qed.

Lemma from_contents_cases (env : Env) (contents filename : str) :
  File.from_contents env contents filename
  = match resolve env filename with
    | None => Raise (exn_of_resolve_error (resolve_raises env filename))
    | Some file_path =>
        match UTF8.encode contents with
        | None => Raise UnicodeEncodeError
        | Some encoded =>
            Return {| File.contents := StringIO contents;
                      File.path := file_path;
                      File.encoding := declared_or utf_8 (split_lf encoded) |}
        end
    end.
Proof.
  unfold File.from_contents, Path_resolve, _determine_content_encoding,
    str_encode.
  destruct (resolve env filename) as [p|]; [|reflexivity].
  rewrite lookup_utf_8. cbn [bind encode UTF8.codec].
  destruct (UTF8.encode contents) as [encoded|]; [|reflexivity].
  cbn [bind]. now rewrite scan_declared_or.
Qed.

(** Splits a statement made of conjunctions and equivalences between
    outcomes and closes what is left by the clash or the match of their
    constructors. *)
Ltac settle :=
  repeat match goal with
         | |- _ /\ _ => split
         | |- _ <-> _ => split
         | |- _ -> _ => intro
         | H : _ /\ _ |- _ => destruct H
         | H : exists _, _ |- _ => destruct H
         end;
  try discriminate; try congruence; eauto.

(** X10: [File.from_contents] returns a handle exactly when the name
    resolves and the text is valid (it holds no surrogate).  Under a name
    that resolves it raises [UnicodeEncodeError] exactly when the text is
    not valid; under a name that does not resolve it raises what
    [Path.resolve] raises, whatever the text is. *)
Theorem from_contents_outcomes (env : Env) (contents filename : str) :
  ((exists h, File.from_contents env contents filename = Return h)
   <-> (exists p, resolve env filename = Some p)
       /\ valid_text contents = true)
  /\ (forall p, resolve env filename = Some p ->
        (File.from_contents env contents filename = Raise UnicodeEncodeError
         <-> valid_text contents = false))
  /\ (resolve env filename = None ->
      File.from_contents env contents filename
      = Raise (exn_of_resolve_error (resolve_raises env filename))).
Proof.
  rewrite from_contents_cases.
  destruct (resolve env filename) as [p|].
  - destruct (valid_text contents) eqn:V.
    + destruct (encode_valid_text contents V) as [encoded ->]. settle.
    + rewrite (valid_text_encode contents V). settle.
  - settle.
Qed.

Lemma from_contents_outcomes_witness :
  File.from_contents (sample_env utf_8 []) [120; 55296] (py "buf.py")
  = Raise UnicodeEncodeError
  /\ File.from_contents (sample_env utf_8 []) (py "x = 1") [55296; 46; 112; 121]
     = Raise UnicodeEncodeError
  /\ File.from_contents (sample_env utf_8 []) (py "x = 1") [98; 0; 46; 112; 121]
     = Raise ValueError.
Proof.
  split; [|split].
  - destruct (from_contents_outcomes (sample_env utf_8 []) [120; 55296]
                (py "buf.py")) as (_ & H & _).
    now apply (H [py "home"; py "user"; py "buf.py"] eq_refl).
  - destruct (from_contents_outcomes (sample_env utf_8 []) (py "x = 1")
                [55296; 46; 112; 121]) as (_ & _ & H).
    apply (H eq_refl).
  - destruct (from_contents_outcomes (sample_env utf_8 []) (py "x = 1")
                [98; 0; 46; 112; 121]) as (_ & _ & H).
    apply (H eq_refl).
Defined.

(** ** The shape of an extension *)

Lemma rfind_found (c : N) (s : str) :
  (0 <= File.rfind c s)%Z ->
  exists pre post,
    s = pre ++ c :: post
    /\ File.rfind c s = Z.of_nat (List.length pre)
    /\ ~ In c post.
Proof.
  induction s as [|x r IH]; simpl; [lia|].
  destruct (0 <=? File.rfind c r)%Z eqn:E.
  - apply Z.leb_le in E. destruct (IH E) as (pre & post & -> & L & N).
    intros _. exists (x :: pre), post. repeat split; [|assumption].
    rewrite L. cbn [List.length]. lia.
  - apply Z.leb_gt in E. destruct (x =? c) eqn:X; [|lia].
    apply N.eqb_eq in X. subst x. intros _. exists [], r.
    repeat split. intros I.
    assert (A : (0 <= File.rfind c r)%Z).
    { clear - I. induction r as [|y r IH]; [contradiction|]. simpl.
      destruct (0 <=? File.rfind c r)%Z eqn:E.
      - apply Z.leb_le in E. lia.
      - destruct I as [->|I].
        + rewrite N.eqb_refl. lia.
        + apply IH in I. apply Z.leb_gt in E. lia. }
    lia.
Qed.

Lemma suffix_cases (p : Path) :
  File.suffix p = []
  \/ exists stem ext,
       File.name p = stem ++ File.dot :: ext
       /\ stem <> [] /\ ext <> [] /\ ~ In File.dot ext
       /\ File.suffix p = File.dot :: ext.
Proof.
  unfold File.suffix.
  destruct ((0 <? File.rfind File.dot (File.name p))
            && (File.rfind File.dot (File.name p)
                <? Z.of_nat (List.length (File.name p)) - 1))%Z eqn:C;
    [|now left].
  right. apply andb_true_iff in C as [C1 C2].
  apply Z.ltb_lt in C1, C2.
  destruct (rfind_found File.dot (File.name p) ltac:(lia))
    as (stem & ext & E & L & N).
  rewrite L in *. rewrite E in C2 |- *.
  rewrite length_app in C2. cbn [List.length] in C2.
  exists stem, ext. repeat split.
  - destruct stem; [simpl in C1; lia|discriminate].
  - destruct ext; [simpl in C2; lia|discriminate].
  - assumption.
  - rewrite Nat2Z.id, skipn_app, skipn_all, Nat.sub_diag. reflexivity.
Qed.

(** X11: an extension never holds a dot, and it is either empty or what
    follows the last dot of the name of the path, with something before
    that dot. *)
Theorem extension_shape (h : File.t) :
  ~ In File.dot (File.extension h)
  /\ (File.extension h = []
      \/ exists stem,
           stem <> []
           /\ File.name (File.path h) = stem ++ File.dot :: File.extension h).
Proof.
  unfold File.extension.
  destruct (suffix_cases (File.path h))
    as [->|(stem & ext & Nm & Hs & He & D & ->)].
  - split; [intros []|now left].
  - simpl. rewrite (lstrip_dot_no_dot ext D). split; [assumption|].
    right. now exists stem.
Qed.

(** X12: the names that have a dot and still no extension: a name whose
    only dot comes first, as that of a hidden file, and a name that ends
    with a dot; so has a path without a component. *)
Theorem extension_of_edge_names (h : File.t) :
  (forall rest, File.name (File.path h) = File.dot :: rest ->
                ~ In File.dot rest -> File.extension h = [])
  /\ (forall stem, File.name (File.path h) = stem ++ [File.dot] ->
                   File.extension h = [])
  /\ (File.path h = [] -> File.extension h = []).
Proof.
  unfold File.extension, File.suffix. split; [|split].
  - intros rest Nm D. rewrite Nm.
    pose proof (rfind_last File.dot [] rest D) as E. cbn [app] in E.
    now rewrite E.
  - intros stem Nm. rewrite Nm.
    rewrite (rfind_last File.dot stem [] (fun I => I)).
    rewrite length_app. cbn [List.length].
    replace (Z.of_nat (List.length stem)
             <? Z.of_nat (List.length stem + 1) - 1)%Z with false;
      [now rewrite andb_false_r|].
    symmetry. apply Z.ltb_ge. lia.
  - now intros ->.
Qed.

Lemma extension_of_edge_names_witness :
  File.extension
    {| File.contents := StringIO [];
       File.path := [py "home"; py "user"; py ".bashrc"];
       File.encoding := utf_8 |} = []
  /\ File.extension
       {| File.contents := StringIO [];
          File.path := [py "home"; py "user"; py "notes."];
          File.encoding := utf_8 |} = [].
Proof.
  split.
  - destruct (extension_of_edge_names
                {| File.contents := StringIO [];
                   File.path := [py "home"; py "user"; py ".bashrc"];
                   File.encoding := utf_8 |}) as (H & _).
    apply (H (py "bashrc") eq_refl).
    intros [I|[I|[I|[I|[I|[I|[]]]]]]]; discriminate I.
  - destruct (extension_of_edge_names
                {| File.contents := StringIO [];
                   File.path := [py "home"; py "user"; py "notes."];
                   File.encoding := utf_8 |}) as (_ & H & _).
    apply (H (py "notes") eq_refl).
Defined.

(** ** Outcomes of the construction from a file *)

Lemma File_read_cases (env : Env) (filename : str) :
  File.read env filename
  = match resolve env filename with
    | None => Raise (exn_of_resolve_error (resolve_raises env filename))
    | Some p =>
        match fs env p with
        | Fails e => Raise (exn_of_open_error e)
        | Opens content =>
            let declared := declared_or utf_8 (readlines content) in
            match lookup env declared with
            | None => Raise LookupError
            | Some c =>
                Return {| File.contents := TextIOWrapper content declared c;
                          File.path := p;
                          File.encoding := declared |}
            end
        end
    end.
Proof.
  unfold File.read, Path_resolve.
  destruct (resolve env filename) as [p|]; [|reflexivity].
  cbn [bind]. rewrite determine_file_encoding_cases. unfold open_text.
  destruct (fs env p) as [content|e]; [|reflexivity].
  cbn [bind]. cbv zeta.
  now destruct (lookup env (declared_or utf_8 (readlines content))).
Qed.

(** X13: [File.read] returns a handle exactly when the name resolves to a
    file that opens and whose declared (or default) encoding names a
    registered codec, whether the bytes decode under it or not.  Under a
    name that resolves it raises [OSError] exactly when the operating
    system refuses to open the file; under a name that does not resolve it
    raises what [Path.resolve] raises. *)
Theorem File_read_outcomes (env : Env) (filename : str) :
  ((exists h, File.read env filename = Return h)
   <-> exists p content c,
         resolve env filename = Some p
         /\ fs env p = Opens content
         /\ lookup env (declared_or utf_8 (readlines content)) = Some c)
  /\ (forall p, resolve env filename = Some p ->
        (File.read env filename = Raise OSError
         <-> fs env p = Fails OpenOSError))
  /\ (resolve env filename = None ->
      File.read env filename
      = Raise (exn_of_resolve_error (resolve_raises env filename))).
Proof.
  rewrite File_read_cases.
  destruct (resolve env filename) as [p|]; [|settle].
  destruct (fs env p) as [content|e] eqn:F.
  - cbv zeta.
    destruct (lookup env (declared_or utf_8 (readlines content)))
      as [c|] eqn:L.
    + split; [split|split].
      * intros _. exists p, content, c. auto.
      * eauto.
      * intros q R. injection R as <-. rewrite F. split; discriminate.
      * discriminate.
    + split; [split|split].
      * intros [h H]. discriminate.
      * intros (q & content' & c & R & F' & L'). injection R as <-.
        rewrite F in F'. injection F' as <-. congruence.
      * intros q R. injection R as <-. rewrite F. split; discriminate.
      * discriminate.
  - split; [split|split].
    + intros [h H]. discriminate.
    + intros (q & content' & c & R & F' & _). injection R as <-. congruence.
    + intros q R. injection R as <-. rewrite F.
      destruct e; split; try discriminate; reflexivity.
    + discriminate.
Qed.

Lemma File_read_outcomes_witness :
  exists h, File.read (mislabelled_env utf_8) (py "a.py") = Return h.
Proof.
  apply (File_read_outcomes (mislabelled_env utf_8) (py "a.py")).
  exists sample_path, mislabelled, ASCII.codec. repeat split.
Defined.

(** X14: a file whose first two lines declare nothing is read as UTF-8
    whenever its bytes are valid UTF-8, whatever the locale is; when they
    are not, it is read under the locale's encoding if they decode under
    that. *)
Theorem undeclared_file_is_read_as_utf_8 (env : Env) (p : Path)
        (content : bytes) :
  fs env p = Opens content ->
  first_declaration (readlines content) = None ->
  _determine_file_encoding env p utf_8 = Return utf_8
  /\ (forall s, UTF8.decode content = Some s ->
                _read_file_contents env p = Return (s, utf_8))
  /\ (UTF8.decode content = None ->
      forall s, decodes env (getpreferredencoding env) content s ->
                _read_file_contents env p
                = Return (s, getpreferredencoding env)).
Proof.
  intros F N.
  assert (D : declared_or utf_8 (readlines content) = utf_8)
    by (unfold declared_or; now rewrite N).
  split; [|split].
  - rewrite (determine_file_encoding_opens env p content utf_8 F).
    now rewrite D.
  - intros s U. rewrite read_file_contents_cases, F. cbv zeta.
    rewrite D, lookup_utf_8. cbn [decode UTF8.codec]. now rewrite U.
  - intros U s (c & L & E). rewrite read_file_contents_cases, F. cbv zeta.
    rewrite D, lookup_utf_8. cbn [decode UTF8.codec]. rewrite U.
    cbn [decoding_of_option]. now rewrite L, E.
Qed.

Lemma undeclared_file_is_read_as_utf_8_witness :
  _read_file_contents
    (sample_env latin_1 [(sample_path, Opens [x78; xc3; xa9; x0a])])
    sample_path = Return ([120; 233; 10], utf_8)
  /\ _read_file_contents
       (sample_env latin_1 [(sample_path, Opens [x78; xe9; x0a])])
       sample_path = Return ([120; 233; 10], latin_1).
Proof.
  split.
  - destruct (undeclared_file_is_read_as_utf_8
                (sample_env latin_1 [(sample_path, Opens [x78; xc3; xa9; x0a])])
                sample_path [x78; xc3; xa9; x0a] eq_refl eq_refl)
      as (_ & H & _).
    apply H. reflexivity.
  - destruct (undeclared_file_is_read_as_utf_8
                (sample_env latin_1 [(sample_path, Opens [x78; xe9; x0a])])
                sample_path [x78; xe9; x0a] eq_refl eq_refl)
      as (_ & _ & H).
    apply H; [reflexivity|].
    exists Latin1.codec. split; reflexivity.
Defined.

(** ** The theorems without a premise, at sample inputs *)

Lemma determine_file_encoding_outcomes_witness :
  _determine_file_encoding (mislabelled_env latin_1) sample_path utf_8
  <> Raise (UnableToDetermineEncoding sample_path utf_8 latin_1).
Proof.
  apply (determine_file_encoding_outcomes (mislabelled_env latin_1)
           sample_path utf_8).
Defined.

Lemma read_file_contents_keeps_decoding_errors_witness :
  _read_file_contents (mislabelled_env utf_8) sample_path
  <> Raise UnicodeDecodeError.
Proof.
  apply (read_file_contents_keeps_decoding_errors (mislabelled_env utf_8)
           sample_path).
Defined.

Lemma extension_shape_witness :
  ~ In File.dot
      (File.extension
         {| File.contents := StringIO [];
            File.path := [py "home"; py "user"; py "archive.tar.gz"];
            File.encoding := utf_8 |}).
Proof.
  apply (extension_shape
           {| File.contents := StringIO [];
              File.path := [py "home"; py "user"; py "archive.tar.gz"];
              File.encoding := utf_8 |}).
Defined.
